(** * HabitMon (src/App.tsx): streaks, evolution stages and the habit store

    A shallow embedding of the domain logic of the single-file React
    application [src/App.tsx]: the date utilities [todayISO] and [dateAdd],
    [uniq], [computeStreak], [totalCompletions], [getStage], [stageLabel],
    [load], and the three state updates of the [App] component
    ([addHabit] behind the click handler of [HabitForm], [toggleToday],
    [deleteHabit]).

    Conventions of the model.
    - A JavaScript string is a [string]; each character stands for one
      UTF-16 code unit below 256.
    - A JavaScript number that holds an integer is a [Z]; counters and
      lengths are [nat].
    - A [Date] is its time value, milliseconds since the epoch (UTC), as the
      language standard defines it; the host is described by [Env]: the
      instant read from the clock, the offset of local time from UTC (a
      fixed offset, no daylight-saving change) and the identifier drawn
      from [Math.random].
    - [useState] updates [setHabits (prev => ...)] are the functions
      [list Habit -> list Habit] they apply.
    - Built-ins of the host ([Date], [Set], [Array.prototype.sort],
      [String.prototype.trim]) are written out after the language
      standard; [JSON.parse] is a parameter of [load].
    - Line 264 of the source ends in a doubled comma; it is read as one.

    Rendering, [creatureEmoji], [save] and the two header statistics are
    not part of the development. *)

From Stdlib Require Import ZArith Lia Bool List Ascii String.
From Stdlib Require Import Sorted Permutation OrderedTypeEx.
Import ListNotations.

#[local] Set Warnings "-register-all".

Open Scope string_scope.
Open Scope Z_scope.

(** ** Calendar arithmetic of the language standard *)

Module Calendar.

Definition msPerDay : Z := 86400000.

(** [Day(t)] and [TimeWithinDay(t)]. *)
Definition Day (t : Z) : Z := t / msPerDay.
Definition TimeWithinDay (t : Z) : Z := t mod msPerDay.

(** Days are counted in 400-year eras of 146097 days that start on a
    1 March; [civil_of_doe] splits a day of the era into the year of the
    era (counted from March), the month (1..12) and the day of the
    month. *)
Definition civil_of_doe (doe : Z) : Z * Z * Z :=
  let yoe := (doe - doe / 1460 + doe / 36524 - doe / 146096) / 365 in
  let doy := doe - (365 * yoe + yoe / 4 - yoe / 100) in
  let mp := (5 * doy + 2) / 153 in
  let d := doy - (153 * mp + 2) / 5 + 1 in
  let m := if mp <? 10 then mp + 3 else mp - 9 in
  (yoe, m, d).

Definition doe_of_civil (yoe m d : Z) : Z :=
  let mp := if 2 <? m then m - 3 else m + 9 in
  let doy := (153 * mp + 2) / 5 + d - 1 in
  yoe * 365 + yoe / 4 - yoe / 100 + doy.

(** Year, month (1..12) and day of the month of a day number
    ([YearFromTime], [MonthFromTime] + 1, [DateFromTime]). *)
Definition civil_from_days (z : Z) : Z * Z * Z :=
  let z' := z + 719468 in
  let era := z' / 146097 in
  let doe := z' mod 146097 in
  let '(yoe, m, d) := civil_of_doe doe in
  let y := yoe + era * 400 in
  (if m <=? 2 then y + 1 else y, m, d).

(** Day number of a year, month (1..12) and day of the month; the day may
    lie outside the month, as in [MakeDay]. *)
Definition days_from_civil (y m d : Z) : Z :=
  let y' := if m <=? 2 then y - 1 else y in
  let era := y' / 400 in
  let yoe := y' mod 400 in
  era * 146097 + doe_of_civil yoe m d - 719468.

(** [MakeDay(year, month, date)] with [month] counted from 0. *)
Definition MakeDay (year month date : Z) : Z :=
  let ym := year + month / 12 in
  let mn := month mod 12 in
  days_from_civil ym (mn + 1) 1 + date - 1.

Definition MakeTime (h mi s ms : Z) : Z :=
  h * 3600000 + mi * 60000 + s * 1000 + ms.

Definition MakeDate (day time : Z) : Z := day * msPerDay + time.

(** [TimeClip]: a time value beyond 8.64e15 ms is not a date. *)
Definition TimeClip (t : Z) : option Z :=
  if Z.abs t <=? 8640000000000000 then Some t else None.

(** First and last day number with a four-digit year:
    0000-01-01 and 9999-12-31. *)
Definition firstDay : Z := -719528.
Definition lastDay : Z := 2932896.

End Calendar.

(** ** Decimal fields of the ISO format *)

Module Digits.

Definition digit (n : Z) : ascii := ascii_of_nat (48 + Z.to_nat (n mod 10)).

Definition pad2 (n : Z) : string :=
  String (digit (n / 10)) (String (digit n) "").

Definition pad3 (n : Z) : string := String (digit (n / 100)) (pad2 n).

Definition pad4 (n : Z) : string := String (digit (n / 1000)) (pad3 n).

Definition pad6 (n : Z) : string :=
  String (digit (n / 100000)) (String (digit (n / 10000)) (pad4 n)).

Definition digit_val (c : ascii) : option Z :=
  let n := Z.of_nat (nat_of_ascii c) in
  if (48 <=? n) && (n <=? 57) then Some (n - 48) else None.

Definition num2 (a b : ascii) : option Z :=
  match digit_val a, digit_val b with
  | Some x, Some y => Some (10 * x + y)
  | _, _ => None
  end.

End Digits.

(** ** The host environment and [Date] *)

Record Env : Type := mkEnv {
  now : Z;              (* time value that [new Date()] reads, ms UTC *)
  tzOffset : Z;         (* local time minus UTC, in minutes *)
  randomId : string     (* Math.random().toString(36).substring(2, 9) *)
}.

Module JSDate.
Import Calendar Digits.

Definition LocalTZA (env : Env) : Z := tzOffset env * 60000.
Definition LocalTime (env : Env) (t : Z) : Z := t + LocalTZA env.
Definition UTC (env : Env) (t : Z) : Z := t - LocalTZA env.

(** The year field of [toISOString]: four digits for the years 0 to 9999,
    a sign and six digits otherwise. *)
Definition isoYear (y : Z) : string :=
  if (0 <=? y) && (y <=? 9999) then pad4 y
  else String (if y <? 0 then "-"%char else "+"%char) (pad6 (Z.abs y)).

Definition isoDate (day : Z) : string :=
  let '(y, m, d) := civil_from_days day in
  isoYear y ++ "-" ++ pad2 m ++ "-" ++ pad2 d.

Definition isoTime (t : Z) : string :=
  pad2 (t / 3600000) ++ ":" ++ pad2 (t / 60000 mod 60) ++ ":"
  ++ pad2 (t / 1000 mod 60) ++ "." ++ pad3 (t mod 1000).

(** [Date.prototype.toISOString] of a valid time value. *)
Definition toISOString (t : Z) : string :=
  isoDate (Day t) ++ "T" ++ isoTime (TimeWithinDay t) ++ "Z".

(** [String.prototype.slice(0, 10)]. *)
Definition slice10 (s : string) : string := substring 0 10 s.

(** The date-time form [YYYY-MM-DDTHH:mm:ss] of the standard's string
    format: year, month (01..12), day (01..31), hour, minute, second.
    [None] for every other string: engines read further spellings, which
    the model leaves out; [computeStreak] only passes what [toISOString]
    printed, and that has this form as long as the year has four
    digits. *)
Definition parseDateTime (s : string) : option (Z * Z * Z * Z) :=
  match list_ascii_of_string s with
  | [y3; y2; y1; y0; s1; m1; m0; s2; d1; d0; sT;
     h1; h0; s3; i1; i0; s4; c1; c0] =>
      if Ascii.eqb s1 "-" && Ascii.eqb s2 "-" && Ascii.eqb sT "T"
         && Ascii.eqb s3 ":" && Ascii.eqb s4 ":"
      then
        match num2 y3 y2, num2 y1 y0, num2 m1 m0, num2 d1 d0,
              num2 h1 h0, num2 i1 i0, num2 c1 c0 with
        | Some yh, Some yl, Some m, Some d, Some h, Some mi, Some sec =>
            if (1 <=? m) && (m <=? 12) && (1 <=? d) && (d <=? 31)
               && (h <=? 23) && (mi <=? 59) && (sec <=? 59)
            then Some (100 * yh + yl, m, d, MakeTime h mi sec 0)
            else None
        | _, _, _, _, _, _, _ => None
        end
      else None
  | _ => None
  end.

(** [new Date(s)] for a date-time string without offset: the fields are
    local time. [None] is the Invalid Date. *)
Definition newDate (env : Env) (s : string) : option Z :=
  match parseDateTime s with
  | Some (y, m, d, time) =>
      TimeClip (UTC env (MakeDate (MakeDay y (m - 1) d) time))
  | None => None
  end.

(** [Date.prototype.getDate]: day of the month in local time. *)
Definition getDate (env : Env) (t : Z) : Z :=
  let '(_, _, d) := civil_from_days (Day (LocalTime env t)) in d.

(** [Date.prototype.setDate]: replaces the day of the month of the local
    time and converts back. *)
Definition setDate (env : Env) (t : Z) (dt : Z) : option Z :=
  let lt := LocalTime env t in
  let '(y, m, _) := civil_from_days (Day lt) in
  TimeClip (UTC env (MakeDate (MakeDay y (m - 1) dt) (TimeWithinDay lt))).

End JSDate.

(** ** Arrays, [Set] and strings of the host language *)

Module JS.

(** [Array.prototype.includes] on an array of strings. *)
Definition includes (arr : list string) (x : string) : bool :=
  existsb (String.eqb x) arr.

(** A [Set] of strings is the list of its elements in insertion order;
    [Set_from arr] is [new Set(arr)]. *)
Definition Set_has (s : list string) (x : string) : bool :=
  existsb (String.eqb x) s.

Definition Set_add (s : list string) (x : string) : list string :=
  if Set_has s x then s else (s ++ [x])%list.

Definition Set_from (arr : list string) : list string :=
  fold_left Set_add arr [].

(** [Array.prototype.sort()] without comparator on strings: ascending in
    the order of the code units. The order is total, so the result does
    not depend on the engine's algorithm; insertion sort stands for it. *)
Fixpoint sort_insert (x : string) (l : list string) : list string :=
  match l with
  | [] => [x]
  | y :: l' => if String.leb x y then x :: l else y :: sort_insert x l'
  end.

Definition sort (arr : list string) : list string :=
  fold_right sort_insert [] arr.

(** White space and line terminators among the code units below 256:
    TAB, LF, VT, FF, CR, SP and NBSP. *)
Definition isWhiteSpace (c : ascii) : bool :=
  let n := nat_of_ascii c in
  ((9 <=? n) && (n <=? 13) || (n =? 32) || (n =? 160))%nat.

Fixpoint trimStart (s : string) : string :=
  match s with
  | EmptyString => EmptyString
  | String c s' => if isWhiteSpace c then trimStart s' else s
  end.

Fixpoint trimEnd (s : string) : string :=
  match s with
  | EmptyString => EmptyString
  | String c s' =>
      match trimEnd s' with
      | EmptyString => if isWhiteSpace c then EmptyString
                       else String c EmptyString
      | t => String c t
      end
  end.

(** [String.prototype.trim]. *)
Definition trim (s : string) : string := trimEnd (trimStart s).

(** Values that [JSON.parse] can return. A number is kept as its
    literal. *)
Inductive JSON : Type :=
| JNull
| JBool (b : bool)
| JNumber (literal : string)
| JString (s : string)
| JArray (items : list JSON)
| JObject (fields : list (string * JSON)).

(** How a call ends: with a value, with an exception, or, in the model
    only, because a loop used up its fuel. *)
Inductive outcome (A : Type) : Type :=
| Returns (a : A)
| Throws
| OutOfFuel.

Arguments Returns {A} a.
Arguments Throws {A}.
Arguments OutOfFuel {A}.

End JS.

Export JS.

(** ** Types (lines 24-38) *)

Inductive HabitCategory : Type :=
| Health
| Productivity
| Creativity
| Personal.

Record Habit : Type := mkHabit {
  id : string;
  name : string;
  category : HabitCategory;
  createdAt : string;
  completions : list string
}.

(** ** Utilities (lines 43-68) *)

Definition todayISO (env : Env) : string :=
  JSDate.slice10 (JSDate.toISOString (now env)).

(** [None]: [new Date] gave the Invalid Date, or [setDate] left the range
    of time values, and [toISOString] throws a RangeError. *)
Definition dateAdd (env : Env) (isoDate : string) (days : Z) : option string :=
  match JSDate.newDate env (isoDate ++ "T00:00:00") with
  | None => None
  | Some d =>
      match JSDate.setDate env d (JSDate.getDate env d + days) with
      | None => None
      | Some d' => Some (JSDate.slice10 (JSDate.toISOString d'))
      end
  end.

Definition uniq (arr : list string) : list string := Set_from arr.

(** The [while] loop of [computeStreak]; each turn takes one unit of
    fuel. *)
Fixpoint streakLoop (fuel : nat) (env : Env) (set : list string)
    (streak : nat) (cursor : string) : outcome nat :=
  match fuel with
  | O => OutOfFuel
  | S fuel' =>
      if Set_has set cursor then
        match dateAdd env cursor (-1) with
        | Some cursor' => streakLoop fuel' env set (S streak) cursor'
        | None => Throws
        end
      else Returns streak
  end.

Definition computeStreakWith (fuel : nat) (env : Env)
    (completions : list string) : outcome nat :=
  if (List.length completions =? 0)%nat then Returns 0%nat
  else
    let set := Set_from completions in
    let start :=
      if Set_has set (todayISO env) then Some (todayISO env)
      else dateAdd env (todayISO env) (-1) in
    match start with
    | Some cursor => streakLoop fuel env set 0 cursor
    | None => Throws
    end.

(** The loop never needs more turns than the array has elements, plus the
    turn that leaves it ([computeStreak_fuel] below). *)
Definition computeStreak (env : Env) (completions : list string)
    : outcome nat :=
  computeStreakWith (S (List.length completions)) env completions.

Definition totalCompletions (completions : list string) : nat :=
  List.length completions.

(** ** Creature logic (lines 81-103) *)

Record Thresholds : Type := { baby : Z; final : Z }.

Definition THRESHOLDS : Thresholds := {| baby := 4; final := 11 |}.

Inductive EvolutionStage : Type := Egg | Baby | Final.

Definition getStage (completions : Z) : EvolutionStage :=
  if final THRESHOLDS <=? completions then Final
  else if baby THRESHOLDS <=? completions then Baby
  else Egg.

Definition stageLabel (completions : Z) : string :=
  match getStage completions with
  | Egg => "Egg"
  | Baby => "Hatchling"
  | Final => "Evolved"
  end.

(** ** Storage (lines 108-116) *)

Definition STORAGE_KEY : string := "habitmon:v01:habits".

(** [localStorage]: [getItem] gives [None] for [null]. A [getItem] that
    throws is not modelled; [load] would catch it. *)
Definition Storage : Type := string -> option string.

Section Load.

(** [JSON.parse] belongs to the host; [None] stands for the SyntaxError
    it throws. *)
Variable JSON_parse : string -> option JSON.

(** The value [load] returns at run time; the annotation [as Habit[]]
    is erased. *)
Definition load (localStorage : Storage) : JSON :=
  match localStorage STORAGE_KEY with
  | None => JArray []
  | Some raw =>
      if (raw =? "")%string then JArray []
      else match JSON_parse raw with
           | Some v => v
           | None => JArray []
           end
  end.

End Load.

(** ** The store: state updates of [App] (lines 262-290) *)

Record HabitData : Type := mkData {
  data_name : string;
  data_category : HabitCategory
}.

Definition addHabit (env : Env) (data : HabitData) (prev : list Habit)
    : list Habit :=
  let newHabit :=
    {| id := randomId env;
       name := data_name data;
       category := data_category data;
       createdAt := JSDate.toISOString (now env);
       completions := [] |} in
  newHabit :: prev.

(** The callback of [prev.map] in [toggleToday]. *)
Definition toggleHabit (iso : string) (target : string) (h : Habit) : Habit :=
  if negb (id h =? target)%string then h
  else
    let done := includes (completions h) iso in
    {| id := id h;
       name := name h;
       category := category h;
       createdAt := createdAt h;
       completions :=
         if done
         then filter (fun d => negb (d =? iso)%string) (completions h)
         else sort (uniq (completions h ++ [iso])) |}.

Definition toggleToday (env : Env) (target : string) (prev : list Habit)
    : list Habit :=
  let iso := todayISO env in
  map (toggleHabit iso target) prev.

Definition deleteHabit (target : string) (prev : list Habit) : list Habit :=
  filter (fun h => negb (id h =? target)%string) prev.

(** The state that the click handler of [HabitForm] reads and writes: the
    form's [name] and [category], and the [habits] of [App] behind
    [onAdd]. *)
Record AppState : Type := mkState {
  habits : list Habit;
  form_name : string;
  form_category : HabitCategory
}.

(** [onClick] of the "Add Habit" button (lines 179-183). *)
Definition HabitForm_onClick (env : Env) (st : AppState) : AppState :=
  if (trim (form_name st) =? "")%string then st
  else
    {| habits :=
         addHabit env
           {| data_name := trim (form_name st);
              data_category := form_category st |}
           (habits st);
       form_name := "";
       form_category := form_category st |}.

(** ** Checks by enumeration *)

(** [all_from n z f]: [f] holds of z, z + 1, ..., z + n - 1. *)
Fixpoint all_from (n : nat) (z : Z) (f : Z -> bool) : bool :=
  match n with
  | O => true
  | S k => f z && all_from k (z + 1) f
  end.

(** What one era must satisfy for the calendar functions to be inverse to
    each other: the fields are in range, the day of the era is recovered,
    and January and February belong to the next year. *)
Definition era_check (doe : Z) : bool :=
  let '(yoe, m, d) := Calendar.civil_of_doe doe in
  (0 <=? yoe) && (yoe <=? 399) && (1 <=? m) && (m <=? 12)
  && (1 <=? d) && (d <=? 31)
  && (Calendar.doe_of_civil yoe m d =? doe)
  && (if doe <=? 146036 then (2 <? m) || (yoe <=? 398)
      else (yoe =? 399) && (m <=? 2)).

(** ** The environments the statements range over *)

(** The clock shows an instant from 1970 to the end of year 9999, and local
    time is at most 12 hours behind and 14 hours ahead of UTC. *)
Definition env_ok (env : Env) : Prop :=
  0 <= now env < 253402300800000 /\ -720 <= tzOffset env <= 840.

(** Whole days by which the UTC date of a local midnight differs from the
    local date: 0 when local time is UTC or behind it, -1 when it is
    ahead. *)
Definition tzShift (env : Env) : Z :=
  (- JSDate.LocalTZA env) / Calendar.msPerDay.

(** Entries of the array that are dates up to day [z], with repetitions:
    the measure of [streakLoop]. *)
Definition parseDay (s : string) : option Z :=
  match JSDate.parseDateTime (s ++ "T00:00:00") with
  | Some (y, m, d, _) => Some (Calendar.MakeDay y (m - 1) d)
  | None => None
  end.

Definition upTo (z : Z) (s : string) : bool :=
  match parseDay s with
  | Some z' => z' <=? z
  | None => false
  end.

Definition below (z : Z) (arr : list string) : nat :=
  List.length (filter (upTo z) arr).

(** ** The streak as the specification words it *)

Module Spec.

(** Dates are day numbers; a day belongs to the completions when its
    [YYYY-MM-DD] spelling is an entry. *)
Definition member (completions : list string) (day : Z) : bool :=
  includes completions (JSDate.isoDate day).

(** "While cursor is in completions: increment the count, then
    cursor := cursor - 1 day." A walk over [n] entries ends within
    [n + 1] tests. *)
Fixpoint walk (fuel : nat) (completions : list string) (cursor : Z)
    (count : nat) : nat :=
  match fuel with
  | O => count
  | S fuel' =>
      if member completions cursor
      then walk fuel' completions (cursor - 1) (S count)
      else count
  end.

(** "If completions is empty, result is 0. Otherwise set cursor := today
    if today is in completions, else cursor := today - 1 day." *)
Definition streak (today : Z) (completions : list string) : nat :=
  match completions with
  | [] => 0%nat
  | _ =>
      let cursor :=
        if member completions today then today else today - 1 in
      walk (S (List.length completions)) completions cursor 0
  end.

End Spec.

(** ** Vocabulary of the statements *)

(** Ascending order of the code units, strict: what [sort] leaves when no
    entry repeats. *)
Definition ascending (arr : list string) : Prop :=
  StronglySorted (fun a b => String.ltb a b = true) arr.

Definition nondescending (arr : list string) : Prop :=
  StronglySorted (fun a b => String.leb a b = true) arr.

(** [sub] keeps some entries of [arr], in their order. *)
Inductive subseq {A : Type} : list A -> list A -> Prop :=
| subseq_nil : subseq [] []
| subseq_drop x sub arr : subseq sub arr -> subseq sub (x :: arr)
| subseq_keep x sub arr : subseq sub arr -> subseq (x :: sub) (x :: arr).

(** The completions that [toggleHabit] stores for the habit it matches. *)
Definition toggled (iso : string) (arr : list string) : list string :=
  if includes arr iso
  then filter (fun d => negb (d =? iso)%string) arr
  else sort (uniq (arr ++ [iso])).

(** Same record up to the order and repetition of the completions. *)
Definition same_contents (h2 h : Habit) : Prop :=
  id h2 = id h /\ name h2 = name h /\ category h2 = category h
  /\ createdAt h2 = createdAt h
  /\ forall d, In d (completions h2) <-> In d (completions h).

(** No habit of the collection carries the identifier. *)
Definition fresh_id (i : string) (hs : list Habit) : Prop :=
  ~ In i (map id hs).

(** The storage whose slot holds [raw]. *)
Definition storing (raw : string) : Storage :=
  fun key => if (key =? STORAGE_KEY)%string then Some raw else None.

Definition emptyStorage : Storage := fun _ => None.

(** ** Examples *)

(** Noon UTC of 10 January 2024, read in three time zones. *)
Definition noon : Z := 1704888000000.
Definition envUTC : Env := mkEnv noon 0 "k3x9q2a".
Definition envParis : Env := mkEnv noon 60 "k3x9q2a".
Definition envNewYork : Env := mkEnv noon (-300) "k3x9q2a".

Definition morningWalk : Habit :=
  mkHabit "k3x9q2a" "Morning Walk" Health "2024-01-01T08:00:00.000Z"
    ["2024-01-08"; "2024-01-09"].

(** The form with a name typed in, and with blanks only. *)
Definition readForm : AppState := mkState [morningWalk] "  Read  " Personal.
Definition blankForm : AppState := mkState [morningWalk] "   " Creativity.

(** ** The rest of [App.tsx] *)

(** Lines 24-29. *)
Definition CATEGORIES : list HabitCategory :=
  [Health; Productivity; Creativity; Personal].

(** [===] on two categories. *)
Definition category_eqb (a b : HabitCategory) : bool :=
  match a, b with
  | Health, Health | Productivity, Productivity
  | Creativity, Creativity | Personal, Personal => true
  | _, _ => false
  end.

(** An emoji is the list of its UTF-16 code units: the literals of lines
    75-78 lie outside the code units that [string] holds. *)
Definition glyph : Type := list Z.

Definition CREATURES (c : HabitCategory) : glyph * glyph * glyph :=
  match c with
  | Health => ([0xd83e; 0xdd5a], [0xd83d; 0xdc23], [0xd83e; 0xdd8b])
  | Productivity => ([0xd83e; 0xdd5a], [0xd83e; 0xdd16], [0xd83d; 0xde80])
  | Creativity => ([0xd83e; 0xdd5a], [0x2728], [0xd83c; 0xdf0c])
  | Personal => ([0xd83e; 0xdd5a], [0xd83e; 0xdd8a], [0xd83e; 0xdd84])
  end.

(** Lines 94-98. *)
Definition creatureEmoji (category : HabitCategory) (completions : Z)
    : glyph :=
  let stage := getStage completions in
  let '(egg, baby, final) := CREATURES category in
  match stage with
  | Egg => egg
  | Baby => baby
  | Final => final
  end.

(** Position of a stage on the ladder Egg, Baby, Final. *)
Definition stageRank (s : EvolutionStage) : Z :=
  match s with
  | Egg => 0
  | Baby => 1
  | Final => 2
  end.

(** What [HabitItem] derives for the button (lines 205-206, 227-229). *)
Definition doneToday (env : Env) (habit : Habit) : bool :=
  includes (completions habit) (todayISO env).

Definition buttonLabel (env : Env) (habit : Habit) : string :=
  if doneToday env habit then "Done" else "Do today".

(** The category filter of [App] (lines 246, 256-260). *)
Inductive Filter : Type :=
| All
| Only (c : HabitCategory).

Definition filtered (filter : Filter) (habits : list Habit) : list Habit :=
  match filter with
  | All => habits
  | Only c => List.filter (fun h => category_eqb (category h) c) habits
  end.

(** Quick stats (lines 293-297). The second [reduce] ends as
    [computeStreak] does when that does not return. *)
Definition totalChecks (habits : list Habit) : nat :=
  fold_left (fun acc h => (acc + List.length (completions h))%nat) habits 0%nat.

Definition activeStreaks (env : Env) (habits : list Habit) : outcome nat :=
  fold_left
    (fun acc h =>
       match acc with
       | Returns a =>
           match computeStreak env (completions h) with
           | Returns n => Returns (a + (if (0 <? n)%nat then 1 else 0))%nat
           | Throws => Throws
           | OutOfFuel => OutOfFuel
           end
       | Throws => Throws
       | OutOfFuel => OutOfFuel
       end)
    habits (Returns 0%nat).











(** ** The application as a machine *)

(** What the user can do: type a name, pick a category, press "Add Habit",
    press a habit's toggle or delete button. The clock and the random
    draw of each press come with it. *)
Inductive Action : Type :=
| TypeName (text : string)
| PickCategory (c : HabitCategory)
| ClickAdd (env : Env)
| ClickToggle (env : Env) (target : string)
| ClickDelete (target : string).

Definition act (st : AppState) (a : Action) : AppState :=
  match a with
  | TypeName text =>
      {| habits := habits st; form_name := text;
         form_category := form_category st |}
  | PickCategory c =>
      {| habits := habits st; form_name := form_name st;
         form_category := c |}
  | ClickAdd env => HabitForm_onClick env st
  | ClickToggle env target =>
      {| habits := toggleToday env target (habits st);
         form_name := form_name st; form_category := form_category st |}
  | ClickDelete target =>
      {| habits := deleteHabit target (habits st);
         form_name := form_name st; form_category := form_category st |}
  end.

Definition run (actions : list Action) (st : AppState) : AppState :=
  fold_left act actions st.

(** [useState([])], [useState("")], [useState("Health")]. *)
Definition initialState : AppState := mkState [] "" Health.

(** ** Vocabulary of the further statements *)

(** Days between two cursors of [computeStreak]. *)
Definition streakStep (env : Env) : Z :=
  if 0 <? tzOffset env then 2 else 1.

(** The day the loop starts from: the UTC date when it is completed, one
    step before otherwise. *)
Definition streakStart (env : Env) (arr : list string) : Z :=
  let today := Calendar.Day (now env) in
  if includes arr (JSDate.isoDate today) then today
  else today - streakStep env.

(** [n] cursors in a row are completed and the next one is not. *)
Definition streak_days (env : Env) (arr : list string) (n : nat) : Prop :=
  (forall i, 0 <= i < Z.of_nat n ->
     In (JSDate.isoDate (streakStart env arr - streakStep env * i)) arr)
  /\ ~ In (JSDate.isoDate
             (streakStart env arr - streakStep env * Z.of_nat n)) arr.

(** A name as the form stores it, and completions as the toggle leaves
    them. *)
Definition habit_ok (h : Habit) : Prop :=
  name h <> "" /\ trim (name h) = name h /\ ascending (completions h).

(** * Properties *)

(** ** The calendar *)

Section CalendarFacts.
Import Calendar.

Lemma all_from_spec (f : Z -> bool) (n : nat) :
  forall z0, all_from n z0 f = true ->
  forall z, z0 <= z < z0 + Z.of_nat n -> f z = true.
Proof.
  induction n as [|k IH]; intros z0 Hall z Hz.
  - lia.
  - cbn [all_from] in Hall. apply andb_true_iff in Hall as [Hk Hrest].
    destruct (Z.eq_dec z z0) as [->|Hne]; [exact Hk|].
    apply (IH (z0 + 1)); [exact Hrest | lia].
Qed.

Lemma era_checked : all_from (Z.to_nat 146097) 0 era_check = true.
Proof. vm_compute. reflexivity. Qed.

Lemma era_check_holds (doe : Z) :
  0 <= doe < 146097 -> era_check doe = true.
Proof.
  intros H. apply (all_from_spec era_check (Z.to_nat 146097) 0 era_checked).
  rewrite Z2Nat.id; lia.
Qed.

(** The fields of a day of the era, as propositions. *)
Lemma civil_of_doe_spec (doe : Z) :
  0 <= doe < 146097 ->
  forall yoe m d, civil_of_doe doe = (yoe, m, d) ->
  0 <= yoe <= 399 /\ 1 <= m <= 12 /\ 1 <= d <= 31
  /\ doe_of_civil yoe m d = doe
  /\ (doe <= 146036 -> 2 < m \/ yoe <= 398)
  /\ (146036 < doe -> yoe = 399 /\ m <= 2).
Proof.
  intros Hdoe yoe m d E.
  pose proof (era_check_holds doe Hdoe) as C.
  unfold era_check in C. rewrite E in C.
  repeat (apply andb_true_iff in C as [C ?]).
  destruct (Z.leb_spec doe 146036).
  - apply orb_true_iff in H. intuition lia.
  - apply andb_true_iff in H as [? ?]. intuition lia.
Qed.

Lemma days_from_civil_from_days (z y m d : Z) :
  civil_from_days z = (y, m, d) ->
  days_from_civil y m d = z /\ 1 <= m <= 12 /\ 1 <= d <= 31.
Proof.
  unfold civil_from_days, days_from_civil.
  set (z' := z + 719468).
  destruct (civil_of_doe (z' mod 146097)) as [[yoe m'] d'] eqn:E.
  intros [= <- <- <-].
  pose proof (Z.mod_pos_bound z' 146097 ltac:(lia)) as Hb.
  destruct (civil_of_doe_spec _ Hb _ _ _ E) as (Hy & Hm & Hd & Hdoe & _).
  split; [|tauto].
  set (era := z' / 146097).
  set (y := yoe + era * 400).
  assert (Hy' : (if m' <=? 2 then (if m' <=? 2 then y + 1 else y) - 1
                 else (if m' <=? 2 then y + 1 else y)) = y)
    by (destruct (m' <=? 2); lia).
  rewrite Hy'.
  subst y.
  replace ((yoe + era * 400) / 400) with era
    by (rewrite Z.div_add by lia; rewrite Z.div_small by lia; lia).
  replace ((yoe + era * 400) mod 400) with yoe
    by (rewrite Z.mod_add by lia; rewrite Z.mod_small by lia; lia).
  rewrite Hdoe. pose proof (Z.div_mod z' 146097 ltac:(lia)). subst era z'. lia.
Qed.

Lemma civil_year_range (z y m d : Z) :
  civil_from_days z = (y, m, d) ->
  (firstDay <= z <= lastDay -> 0 <= y <= 9999)
  /\ (z < firstDay -> y < 0).
Proof.
  unfold civil_from_days, firstDay, lastDay.
  set (z' := z + 719468).
  destruct (civil_of_doe (z' mod 146097)) as [[yoe m'] d'] eqn:E.
  intros [= <- <- <-].
  pose proof (Z.mod_pos_bound z' 146097 ltac:(lia)) as Hb.
  destruct (civil_of_doe_spec _ Hb _ _ _ E) as (Hy & Hm & Hd & _ & Hlo & Hhi).
  pose proof (Z.div_mod z' 146097 ltac:(lia)) as Hz.
  set (era := z' / 146097) in *. set (doe := z' mod 146097) in *.
  split; intros Hr; destruct (Z.leb_spec m' 2); subst z'; lia.
Qed.

Lemma days_from_civil_shift (y m d k : Z) :
  days_from_civil y m (d + k) = days_from_civil y m d + k.
Proof. unfold days_from_civil, doe_of_civil. lia. Qed.

Lemma MakeDay_month (y m d : Z) :
  1 <= m <= 12 -> MakeDay y (m - 1) d = days_from_civil y m d.
Proof.
  intros Hm. unfold MakeDay.
  rewrite Z.div_small, Z.mod_small by lia.
  replace (y + 0) with y by lia. replace (m - 1 + 1) with m by lia.
  replace d with (1 + (d - 1)) at 2 by lia.
  rewrite days_from_civil_shift. lia.
Qed.

End CalendarFacts.

(** ** Date strings *)

Section DateStrings.
Import Calendar Digits JSDate.

Lemma digit_val_digit (n : Z) : digit_val (digit n) = Some (n mod 10).
Proof.
  unfold digit_val, digit.
  pose proof (Z.mod_pos_bound n 10 ltac:(lia)) as Hb.
  rewrite nat_ascii_embedding by lia.
  set (v := Z.of_nat (48 + Z.to_nat (n mod 10))).
  assert (Hv : v = 48 + n mod 10) by (subst v; lia).
  destruct (Z.leb_spec 48 v); [|lia].
  destruct (Z.leb_spec v 57); [|lia].
  cbn [andb]. f_equal. lia.
Qed.

Lemma num2_digits (a b : Z) :
  num2 (digit a) (digit b) = Some (10 * (a mod 10) + b mod 10).
Proof. unfold num2. rewrite !digit_val_digit. reflexivity. Qed.

Lemma num2_pad2 (n : Z) :
  0 <= n <= 99 -> num2 (digit (n / 10)) (digit n) = Some n.
Proof.
  intros H. rewrite num2_digits. f_equal.
  rewrite (Z.mod_small (n / 10))
    by (split; [apply Z.div_pos; lia | apply Z.div_lt_upper_bound; lia]).
  pose proof (Z.div_mod n 10 ltac:(lia)). lia.
Qed.

Lemma isoDate_four_digits (z y m d : Z) :
  civil_from_days z = (y, m, d) -> 0 <= y <= 9999 ->
  isoDate z =
    String (digit (y / 1000)) (String (digit (y / 100))
    (String (digit (y / 10)) (String (digit y)
    (String "-" (String (digit (m / 10)) (String (digit m)
    (String "-" (String (digit (d / 10)) (String (digit d) ""))))))))).
Proof.
  intros E Hy. unfold isoDate, isoYear. rewrite E.
  destruct (Z.leb_spec 0 y); [|lia]. destruct (Z.leb_spec y 9999); [|lia].
  reflexivity.
Qed.

Lemma isoDate_expanded (z y m d : Z) :
  civil_from_days z = (y, m, d) -> y < 0 ->
  exists rest, isoDate z = String "-" rest.
Proof.
  intros E Hy. unfold isoDate, isoYear. rewrite E.
  destruct (Z.leb_spec 0 y); [lia|]. destruct (Z.ltb_spec y 0); [|lia].
  cbn. eexists. reflexivity.
Qed.

Lemma parseDateTime_isoDate (z y m d : Z) :
  civil_from_days z = (y, m, d) -> firstDay <= z <= lastDay ->
  parseDateTime (isoDate z ++ "T00:00:00") = Some (y, m, d, 0).
Proof.
  intros E Hz.
  destruct (civil_year_range _ _ _ _ E) as [Hy _]. specialize (Hy Hz).
  destruct (days_from_civil_from_days _ _ _ _ E) as (_ & Hm & Hd).
  rewrite (isoDate_four_digits _ _ _ _ E Hy).
  unfold parseDateTime. cbn [append list_ascii_of_string].
  cbn [Ascii.eqb Bool.eqb andb].
  rewrite (num2_digits (y / 1000) (y / 100)), (num2_digits (y / 10) y).
  rewrite (num2_pad2 m), (num2_pad2 d) by lia.
  replace (num2 "0" "0") with (Some 0) by reflexivity.
  destruct (Z.leb_spec 1 m); [|lia]. destruct (Z.leb_spec m 12); [|lia].
  destruct (Z.leb_spec 1 d); [|lia]. destruct (Z.leb_spec d 31); [|lia].
  replace (0 <=? 23) with true by reflexivity.
  replace (0 <=? 59) with true by reflexivity.
  cbn [andb]. unfold MakeTime.
  replace (100 * (10 * ((y / 1000) mod 10) + (y / 100) mod 10)
           + (10 * ((y / 10) mod 10) + y mod 10)) with y
    by (Z.div_mod_to_equations; lia).
  reflexivity.
Qed.

Lemma parseDay_isoDate (z : Z) :
  firstDay <= z <= lastDay -> parseDay (isoDate z) = Some z.
Proof.
  intros Hz. unfold parseDay.
  destruct (civil_from_days z) as [[y m] d] eqn:E.
  rewrite (parseDateTime_isoDate _ _ _ _ E Hz).
  destruct (days_from_civil_from_days _ _ _ _ E) as (Hr & Hm & _).
  rewrite MakeDay_month by lia. now rewrite Hr.
Qed.

End DateStrings.

Section DateFacts.
Import Calendar Digits JSDate.

Lemma slice10_toISOString (t : Z) :
  firstDay <= Day t <= lastDay ->
  slice10 (toISOString t) = isoDate (Day t).
Proof.
  intros Hz. unfold toISOString.
  destruct (civil_from_days (Day t)) as [[y m] d] eqn:E.
  destruct (civil_year_range _ _ _ _ E) as [Hy _]. specialize (Hy Hz).
  rewrite (isoDate_four_digits _ _ _ _ E Hy). reflexivity.
Qed.

Lemma slice10_toISOString_before (t : Z) :
  Day t < firstDay ->
  exists rest, slice10 (toISOString t) = String "-" rest.
Proof.
  intros Hz. unfold toISOString.
  destruct (civil_from_days (Day t)) as [[y m] d] eqn:E.
  destruct (civil_year_range _ _ _ _ E) as [_ Hy]. specialize (Hy Hz).
  destruct (isoDate_expanded _ _ _ _ E Hy) as [rest ->].
  cbn [append slice10 substring]. eexists. reflexivity.
Qed.

Lemma parseDateTime_sign (s : string) : parseDateTime (String "-" s) = None.
Proof.
  unfold parseDateTime. cbn [list_ascii_of_string].
  destruct (list_ascii_of_string s) as [|c l]; [reflexivity|].
  do 17 (destruct l as [|? l]; [reflexivity|]).
  destruct l; [|reflexivity].
  match goal with |- (if ?b then _ else _) = _ => destruct b end;
    [|reflexivity].
  unfold num2 at 1. change (digit_val "-") with (@None Z). reflexivity.
Qed.

Lemma dateAdd_sign (env : Env) (s : string) (k : Z) :
  dateAdd env (String "-" s) k = None.
Proof.
  unfold dateAdd, newDate. cbn [append].
  now rewrite parseDateTime_sign.
Qed.

Lemma tzShift_cases (env : Env) :
  env_ok env ->
  (tzOffset env <= 0 /\ tzShift env = 0)
  \/ (0 < tzOffset env /\ tzShift env = -1).
Proof.
  intros [_ Htz]. unfold tzShift, LocalTZA, msPerDay.
  destruct (Z_le_gt_dec (tzOffset env) 0); [left|right]; split; try lia.
  - apply Z.div_small. lia.
  - symmetry.
    apply (Z.div_unique _ _ _ (- (tzOffset env * 60000) + 86400000)); lia.
Qed.

Lemma Day_midnight (env : Env) (z : Z) :
  Day (z * msPerDay - LocalTZA env) = z + tzShift env.
Proof.
  unfold Day, tzShift.
  replace (z * msPerDay - LocalTZA env)
    with (- LocalTZA env + z * msPerDay) by lia.
  rewrite Z.div_add by (unfold msPerDay; lia). lia.
Qed.

Lemma TimeClip_midnight (env : Env) (z : Z) :
  env_ok env -> firstDay - 1 <= z <= lastDay ->
  TimeClip (z * msPerDay - LocalTZA env) = Some (z * msPerDay - LocalTZA env).
Proof.
  intros [_ Htz] Hz. unfold TimeClip.
  destruct (Z.leb_spec (Z.abs (z * msPerDay - LocalTZA env)) 8640000000000000);
    [reflexivity|].
  unfold firstDay, lastDay, LocalTZA, msPerDay in *. lia.
Qed.

Lemma newDate_isoDate (env : Env) (z : Z) :
  env_ok env -> firstDay <= z <= lastDay ->
  newDate env (isoDate z ++ "T00:00:00") = Some (z * msPerDay - LocalTZA env).
Proof.
  intros Hok Hz.
  destruct (civil_from_days z) as [[y m] d] eqn:E.
  destruct (days_from_civil_from_days _ _ _ _ E) as (Hr & Hm & Hd).
  unfold newDate. rewrite (parseDateTime_isoDate _ _ _ _ E Hz).
  rewrite MakeDay_month, Hr by lia.
  unfold MakeDate, UTC. rewrite Z.add_0_r.
  apply TimeClip_midnight; [exact Hok | lia].
Qed.

Lemma LocalTime_midnight (env : Env) (z : Z) :
  Day (LocalTime env (z * msPerDay - LocalTZA env)) = z
  /\ TimeWithinDay (LocalTime env (z * msPerDay - LocalTZA env)) = 0.
Proof.
  unfold LocalTime.
  replace (z * msPerDay - LocalTZA env + LocalTZA env) with (z * msPerDay)
    by lia.
  unfold Day, TimeWithinDay. split.
  - apply Z.div_mul. unfold msPerDay. lia.
  - apply Z.mod_mul. unfold msPerDay. lia.
Qed.

Lemma setDate_midnight (env : Env) (z k : Z) :
  setDate env (z * msPerDay - LocalTZA env)
    (getDate env (z * msPerDay - LocalTZA env) + k)
  = TimeClip ((z + k) * msPerDay - LocalTZA env).
Proof.
  unfold setDate, getDate.
  destruct (LocalTime_midnight env z) as [-> ->].
  destruct (civil_from_days z) as [[y m] d] eqn:E.
  destruct (days_from_civil_from_days _ _ _ _ E) as (Hr & Hm & Hd).
  rewrite MakeDay_month, days_from_civil_shift, Hr by lia.
  unfold MakeDate, UTC. now rewrite Z.add_0_r.
Qed.

(** The cursor that follows day [z] in [computeStreak]. *)
Lemma dateAdd_isoDate (env : Env) (z : Z) :
  env_ok env -> firstDay <= z <= lastDay ->
  dateAdd env (isoDate z) (-1)
  = Some (slice10 (toISOString ((z - 1) * msPerDay - LocalTZA env))).
Proof.
  intros Hok Hz. unfold dateAdd.
  rewrite (newDate_isoDate env z Hok Hz), setDate_midnight.
  replace (z + -1) with (z - 1) by lia.
  rewrite TimeClip_midnight; [reflexivity | exact Hok | lia].
Qed.

Lemma todayISO_isoDate (env : Env) :
  env_ok env ->
  todayISO env = isoDate (Day (now env)) /\ 0 <= Day (now env) <= lastDay.
Proof.
  intros [Hnow _].
  assert (H : 0 <= Day (now env) <= lastDay).
  { unfold Day, lastDay, msPerDay. split.
    - apply Z.div_pos; lia.
    - apply Z.lt_succ_r. apply Z.div_lt_upper_bound; lia. }
  split; [|exact H].
  unfold todayISO. apply slice10_toISOString. unfold firstDay. lia.
Qed.

(** One call of [dateAdd] with -1: a day back when local time is UTC or
    behind it, two days back when it is ahead. *)
Lemma dateAdd_back (env : Env) (z : Z) :
  env_ok env -> firstDay + 2 <= z <= lastDay ->
  dateAdd env (isoDate z) (-1)
  = Some (isoDate (if 0 <? tzOffset env then z - 2 else z - 1)).
Proof.
  intros Hok Hz. rewrite dateAdd_isoDate by (auto; lia).
  pose proof (Day_midnight env (z - 1)) as Hd.
  rewrite slice10_toISOString; rewrite Hd;
    destruct (tzShift_cases env Hok) as [[Ht ->]|[Ht ->]];
    destruct (Z.ltb_spec 0 (tzOffset env)); try lia;
    do 2 f_equal; lia.
Qed.

Example calendar_examples :
  civil_from_days 0 = (1970, 1, 1)
  /\ civil_from_days 19782 = (2024, 2, 29)
  /\ days_from_civil 2024 1 10 = 19732
  /\ civil_from_days firstDay = (0, 1, 1)
  /\ civil_from_days lastDay = (9999, 12, 31)
  /\ toISOString noon = "2024-01-10T12:00:00.000Z"
  /\ toISOString (-1) = "1969-12-31T23:59:59.999Z".
Proof. vm_compute. repeat split. Qed.

Example dateAdd_examples :
  dateAdd envUTC "2024-03-01" (-1) = Some "2024-02-29"
  /\ dateAdd envNewYork "2024-01-01" (-1) = Some "2023-12-31"
  /\ dateAdd envParis "2024-01-01" (-1) = Some "2023-12-30"
  /\ dateAdd envParis "2024-01-01" 0 = Some "2023-12-31"
  /\ dateAdd envUTC "yesterday" (-1) = None.
Proof. vm_compute. repeat split. Qed.

End DateFacts.

(** ** Sets and the streak loop *)

Section SetFacts.

Lemma includes_In (arr : list string) (x : string) :
  includes arr x = true <-> In x arr.
Proof.
  unfold includes. rewrite existsb_exists. split.
  - intros (y & Hy & E). apply String.eqb_eq in E. now subst.
  - intros H. exists x. split; [exact H | apply String.eqb_refl].
Qed.

Lemma Set_has_In (s : list string) (x : string) :
  Set_has s x = true <-> In x s.
Proof. exact (includes_In s x). Qed.

Lemma Set_add_In (s : list string) (x y : string) :
  In y (Set_add s x) <-> In y s \/ y = x.
Proof.
  unfold Set_add. destruct (Set_has s x) eqn:E.
  - apply Set_has_In in E. split; [tauto|]. intros [H| ->]; assumption.
  - rewrite in_app_iff. cbn. intuition.
Qed.

Lemma Set_add_NoDup (s : list string) (x : string) :
  NoDup s -> NoDup (Set_add s x).
Proof.
  intros H. unfold Set_add. destruct (Set_has s x) eqn:E; [exact H|].
  assert (Hx : ~ In x s).
  { intros Hin. apply Set_has_In in Hin. congruence. }
  clear E. induction H as [|a l Ha Hl IH]; cbn.
  - constructor; [intros []|constructor].
  - constructor.
    + rewrite in_app_iff. cbn. intros [H|[H|[]]]; [tauto|].
      subst. apply Hx. now left.
    + apply IH. intros Hin. apply Hx. now right.
Qed.

Lemma fold_Set_add_In (arr s : list string) (y : string) :
  In y (fold_left Set_add arr s) <-> In y s \/ In y arr.
Proof.
  revert s. induction arr as [|x arr IH]; intros s; cbn.
  - tauto.
  - rewrite IH, Set_add_In. intuition.
Qed.

Lemma fold_Set_add_NoDup (arr s : list string) :
  NoDup s -> NoDup (fold_left Set_add arr s).
Proof.
  revert s. induction arr as [|x arr IH]; intros s H; cbn.
  - exact H.
  - apply IH. now apply Set_add_NoDup.
Qed.

Lemma Set_from_In (arr : list string) (y : string) :
  In y (Set_from arr) <-> In y arr.
Proof. unfold Set_from. rewrite fold_Set_add_In. cbn. tauto. Qed.

Lemma Set_from_NoDup (arr : list string) : NoDup (Set_from arr).
Proof. apply fold_Set_add_NoDup. constructor. Qed.

Lemma Set_has_ext (s1 s2 : list string) :
  (forall x, In x s1 <-> In x s2) ->
  forall x, Set_has s1 x = Set_has s2 x.
Proof.
  intros H x. apply eq_true_iff_eq. rewrite !Set_has_In. apply H.
Qed.

End SetFacts.

Section StreakFacts.
Import Calendar JSDate.

Lemma streakLoop_S (fuel : nat) (env : Env) (set : list string)
    (streak : nat) (cursor : string) :
  streakLoop (S fuel) env set streak cursor =
  if Set_has set cursor then
    match dateAdd env cursor (-1) with
    | Some cursor' => streakLoop fuel env set (S streak) cursor'
    | None => Throws
    end
  else Returns streak.
Proof. reflexivity. Qed.

Lemma below_le_length (z : Z) (arr : list string) :
  (below z arr <= List.length arr)%nat.
Proof. apply filter_length_le. Qed.

Lemma below_lt (z z' : Z) (arr : list string) :
  firstDay <= z <= lastDay -> z' < z -> In (isoDate z) arr ->
  (below z' arr < below z arr)%nat.
Proof.
  intros Hz Hlt. unfold below.
  assert (Hmono : forall s, upTo z' s = true -> upTo z s = true).
  { intros s. unfold upTo. destruct (parseDay s); [|easy].
    rewrite !Z.leb_le. lia. }
  assert (Hle : forall l, (List.length (filter (upTo z') l)
                           <= List.length (filter (upTo z) l))%nat).
  { induction l as [|s l IH]; cbn; [lia|].
    destruct (upTo z' s) eqn:E.
    - rewrite (Hmono _ E). cbn. lia.
    - destruct (upTo z s); cbn; lia. }
  induction arr as [|s arr IH]; intros Hin; [destruct Hin|].
  cbn [filter]. destruct Hin as [-> | Hin].
  - assert (E1 : upTo z' (isoDate z) = false).
    { unfold upTo. rewrite (parseDay_isoDate z Hz). apply Z.leb_gt. lia. }
    assert (E2 : upTo z (isoDate z) = true).
    { unfold upTo. rewrite (parseDay_isoDate z Hz). apply Z.leb_refl. }
    rewrite E1, E2. cbn [List.length]. specialize (Hle arr). lia.
  - specialize (IH Hin). destruct (upTo z' s) eqn:E.
    + rewrite (Hmono _ E). cbn [List.length]. lia.
    + destruct (upTo z s); cbn [List.length]; lia.
Qed.

(** The loop from a day with a four-digit year: it ends within the fuel,
    counts at most the entries up to that day, and can throw only when
    the array is long enough to lead the cursor before year 0. *)
Lemma streakLoop_sound (env : Env) (arr : list string) :
  env_ok env ->
  forall (fuel : nat) (z : Z) (streak : nat),
  firstDay <= z <= lastDay -> (below z arr <= fuel)%nat ->
  match streakLoop (S fuel) env (Set_from arr) streak (isoDate z) with
  | Returns n => (streak <= n <= streak + below z arr)%nat
  | Throws => z - firstDay < 2 * Z.of_nat (below z arr)
  | OutOfFuel => False
  end.
Proof.
  intros Hok. induction fuel as [|fuel IH]; intros z streak Hz Hb;
    rewrite streakLoop_S;
    destruct (Set_has (Set_from arr) (isoDate z)) eqn:Hh; try lia.
  - apply Set_has_In in Hh. rewrite Set_from_In in Hh.
    pose proof (below_lt z (z - 1) arr Hz ltac:(lia) Hh). lia.
  - apply Set_has_In in Hh. rewrite Set_from_In in Hh.
    rewrite (dateAdd_isoDate env z Hok Hz).
    set (t := (z - 1) * msPerDay - LocalTZA env).
    assert (Ht : Day t = z - 1 + tzShift env) by apply Day_midnight.
    pose proof (tzShift_cases env Hok) as Hs.
    pose proof (below_lt z (Day t) arr Hz ltac:(lia) Hh) as Hlt.
    destruct (Z_lt_ge_dec (Day t) firstDay) as [Hout|Hin].
    + destruct (slice10_toISOString_before t Hout) as [rest ->].
      rewrite streakLoop_S, dateAdd_sign.
      destruct (Set_has (Set_from arr) (String "-" rest)); lia.
    + rewrite slice10_toISOString by lia.
      specialize (IH (Day t) (S streak) ltac:(lia) ltac:(lia)).
      destruct (streakLoop (S fuel) env (Set_from arr) (S streak)
                  (isoDate (Day t))); lia.
Qed.

Lemma streakLoop_fuel (env : Env) (set : list string) :
  forall (f1 f2 streak : nat) (cursor : string),
  streakLoop f1 env set streak cursor <> OutOfFuel ->
  streakLoop f2 env set streak cursor <> OutOfFuel ->
  streakLoop f1 env set streak cursor = streakLoop f2 env set streak cursor.
Proof.
  induction f1 as [|f1 IH]; intros f2 streak cursor H1 H2.
  - now contradiction H1.
  - destruct f2 as [|f2]; [now contradiction H2|].
    rewrite !streakLoop_S in *.
    destruct (Set_has set cursor); [|reflexivity].
    destruct (dateAdd env cursor (-1)); [|reflexivity].
    now apply IH.
Qed.

Lemma streakLoop_ext (env : Env) (s1 s2 : list string) :
  (forall x, Set_has s1 x = Set_has s2 x) ->
  forall (fuel streak : nat) (cursor : string),
  streakLoop fuel env s1 streak cursor = streakLoop fuel env s2 streak cursor.
Proof.
  intros H. induction fuel as [|fuel IH]; intros streak cursor;
    [reflexivity|].
  rewrite !streakLoop_S, H.
  destruct (Set_has s2 cursor); [|reflexivity].
  destruct (dateAdd env cursor (-1)); [|reflexivity].
  apply IH.
Qed.

End StreakFacts.

Section ComputeStreakFacts.
Import Calendar JSDate.

Variable env : Env.
Hypothesis Hok : env_ok env.

(** Where the loop starts: a day with a four-digit year, today or the
    day that [dateAdd] reaches from it. *)
Lemma computeStreak_start (arr : list string) :
  arr <> [] ->
  exists z, firstDay <= z <= lastDay /\ -2 <= z
    /\ (forall fuel, computeStreakWith fuel env arr
                     = streakLoop fuel env (Set_from arr) 0 (isoDate z))
    /\ (z = if Set_has (Set_from arr) (isoDate (Day (now env)))
            then Day (now env)
            else Day (now env) - 1 + tzShift env).
Proof.
  intros Hne.
  destruct (todayISO_isoDate env Hok) as [Ht Hd].
  pose proof (tzShift_cases env Hok) as Hs.
  unfold computeStreakWith.
  destruct arr as [|a arr]; [congruence|]. cbn [List.length Nat.eqb].
  rewrite Ht.
  destruct (Set_has (Set_from (a :: arr)) (isoDate (Day (now env)))).
  - exists (Day (now env)). unfold firstDay. repeat split; try lia.
  - exists (Day (now env) - 1 + tzShift env).
    unfold firstDay. repeat split; try lia.
    intros fuel. rewrite dateAdd_isoDate by (unfold firstDay; auto; lia).
    rewrite slice10_toISOString; rewrite Day_midnight;
      [reflexivity | unfold firstDay; lia].
Qed.

(** [computeStreak] ends within its fuel; what it returns is at most the
    length of the array; it can throw only on an array long enough to
    lead the cursor before year 0. *)
Lemma computeStreak_sound (arr : list string) :
  match computeStreak env arr with
  | Returns n => (n <= List.length arr)%nat
  | Throws => 719526 < 2 * Z.of_nat (List.length arr)
  | OutOfFuel => False
  end.
Proof.
  destruct arr as [|a arr]; [cbn; lia|].
  destruct (computeStreak_start (a :: arr) ltac:(discriminate))
    as (z & Hz & Hz2 & Hrun & _).
  unfold computeStreak. rewrite Hrun.
  pose proof (below_le_length z (a :: arr)) as Hb.
  pose proof (streakLoop_sound env (a :: arr) Hok _ z 0%nat Hz Hb) as H.
  destruct (streakLoop (S (List.length (a :: arr))) env
              (Set_from (a :: arr)) 0 (isoDate z));
    [lia | unfold firstDay in H; lia | exact H].
Qed.

(** The fuel that [computeStreak] passes is enough: more fuel changes
    nothing. *)
Lemma computeStreak_fuel (arr : list string) (fuel : nat) :
  (S (List.length arr) <= fuel)%nat ->
  computeStreakWith fuel env arr = computeStreak env arr.
Proof.
  intros Hf.
  pose proof (computeStreak_sound arr) as Hs.
  destruct arr as [|a arr]; [reflexivity|].
  destruct (computeStreak_start (a :: arr) ltac:(discriminate))
    as (z & Hz & Hz2 & Hrun & _).
  unfold computeStreak in *. rewrite !Hrun in *.
  pose proof (below_le_length z (a :: arr)) as Hb.
  destruct fuel as [|fuel]; [lia|].
  pose proof (streakLoop_sound env (a :: arr) Hok fuel z 0%nat Hz
                ltac:(lia)) as H.
  apply streakLoop_fuel.
  - intros E. now rewrite E in H.
  - intros E. now rewrite E in Hs.
Qed.

(** With the same fuel, arrays with the same entries run alike. *)
Lemma computeStreakWith_ext (a1 a2 : list string) (fuel : nat) :
  (forall x, In x a1 <-> In x a2) ->
  computeStreakWith fuel env a1 = computeStreakWith fuel env a2.
Proof.
  intros H. unfold computeStreakWith.
  assert (He : forall x, Set_has (Set_from a1) x = Set_has (Set_from a2) x).
  { apply Set_has_ext. intros x. rewrite !Set_from_In. apply H. }
  assert (Hl : (List.length a1 =? 0)%nat = (List.length a2 =? 0)%nat).
  { destruct a1 as [|x a1], a2 as [|y a2]; try reflexivity.
    - destruct (proj2 (H y)). now left.
    - destruct (proj1 (H x)). now left. }
  rewrite Hl, He.
  destruct (List.length a2 =? 0)%nat; [reflexivity|].
  destruct (if Set_has (Set_from a2) (todayISO env)
            then Some (todayISO env) else dateAdd env (todayISO env) (-1));
    [|reflexivity].
  now apply streakLoop_ext.
Qed.

(** *** On UTC or behind it *)

Hypothesis Hwest : tzOffset env <= 0.

(** The loop is the walk of the specification as long as the cursor keeps
    a four-digit year. *)
Lemma streakLoop_refines (arr : list string) :
  forall (fuel : nat) (z : Z) (streak : nat),
  firstDay + Z.of_nat fuel <= z <= lastDay ->
  streakLoop fuel env (Set_from arr) streak (isoDate z) <> OutOfFuel ->
  streakLoop fuel env (Set_from arr) streak (isoDate z)
  = Returns (Spec.walk fuel arr z streak).
Proof.
  assert (Hs : tzShift env = 0) by (destruct (tzShift_cases env Hok); lia).
  induction fuel as [|fuel IH]; intros z streak Hz Hne;
    [now contradiction Hne|].
  rewrite streakLoop_S in *. cbn [Spec.walk]. unfold Spec.member.
  replace (Set_has (Set_from arr) (isoDate z))
    with (includes arr (isoDate z)) in *
    by (apply eq_true_iff_eq; now rewrite Set_has_In, Set_from_In, includes_In).
  destruct (includes arr (isoDate z)); [|reflexivity].
  rewrite dateAdd_isoDate in * by (auto; lia).
  rewrite slice10_toISOString in * by (rewrite Day_midnight; lia).
  rewrite Day_midnight, Hs, Z.add_0_r in *.
  apply IH; [lia | exact Hne].
Qed.

(** [computeStreak] is the streak of the specification, with the UTC date
    for today. *)
Lemma computeStreak_refines (arr : list string) :
  Z.of_nat (List.length arr) <= 700000 ->
  computeStreak env arr = Returns (Spec.streak (Day (now env)) arr).
Proof.
  intros Hlen.
  pose proof (computeStreak_sound arr) as Hsound.
  destruct arr as [|a arr]; [reflexivity|].
  destruct (computeStreak_start (a :: arr) ltac:(discriminate))
    as (z & Hz & Hz2 & Hrun & Hstart).
  assert (Hs : tzShift env = 0) by (destruct (tzShift_cases env Hok); lia).
  unfold computeStreak in *. rewrite !Hrun in *.
  rewrite streakLoop_refines; try assumption.
  - unfold Spec.streak, Spec.member. do 2 f_equal.
    rewrite Hstart, Hs, Z.add_0_r.
    replace (Set_has (Set_from (a :: arr)) (isoDate (Day (now env))))
      with (includes (a :: arr) (isoDate (Day (now env))))
      by (apply eq_true_iff_eq;
          now rewrite Set_has_In, Set_from_In, includes_In).
    reflexivity.
  - unfold firstDay in *. lia.
  - intros E. now rewrite E in Hsound.
Qed.

End ComputeStreakFacts.

(** ** Sorting *)

Section SortFacts.

Lemma ltb_lt (a b : string) :
  String.ltb a b = true <-> String_as_OT.lt a b.
Proof.
  unfold String.ltb. rewrite <- String_as_OT.cmp_lt.
  unfold String_as_OT.cmp. destruct (String.compare a b); intuition congruence.
Qed.

Lemma leb_lt_eq (a b : string) :
  String.leb a b = true <-> String.ltb a b = true \/ a = b.
Proof.
  unfold String.leb, String.ltb.
  destruct (String.compare a b) eqn:E; split; try tauto;
    try (intros [H|H]; try discriminate).
  - intros _. right. now apply String.compare_eq_iff.
  - subst. assert (String.compare b b = Eq) by now apply String_as_OT.cmp_eq.
    congruence.
Qed.

Lemma ltb_trans (a b c : string) :
  String.ltb a b = true -> String.ltb b c = true -> String.ltb a c = true.
Proof. rewrite !ltb_lt. apply String_as_OT.lt_trans. Qed.

Lemma ltb_irrefl (a : string) : String.ltb a a = false.
Proof.
  unfold String.ltb.
  assert (String.compare a a = Eq) as -> by now apply String_as_OT.cmp_eq.
  reflexivity.
Qed.

Lemma leb_trans (a b c : string) :
  String.leb a b = true -> String.leb b c = true -> String.leb a c = true.
Proof.
  rewrite !leb_lt_eq. intros [H1| ->] [H2| ->]; auto.
  left. eapply ltb_trans; eassumption.
Qed.

Lemma sort_insert_perm (x : string) (l : list string) :
  Permutation (sort_insert x l) (x :: l).
Proof.
  induction l as [|y l IH]; cbn; [reflexivity|].
  destruct (String.leb x y); [reflexivity|].
  rewrite IH. apply perm_swap.
Qed.

Lemma sort_perm (arr : list string) : Permutation (sort arr) arr.
Proof.
  induction arr as [|x arr IH]; cbn; [reflexivity|].
  rewrite sort_insert_perm. now constructor.
Qed.

Lemma sort_In (arr : list string) (x : string) :
  In x (sort arr) <-> In x arr.
Proof.
  split; apply Permutation_in;
    [apply sort_perm | symmetry; apply sort_perm].
Qed.

Lemma sort_insert_sorted (x : string) (l : list string) :
  nondescending l -> nondescending (sort_insert x l).
Proof.
  unfold nondescending. induction 1 as [|y l Hl IH Hy]; cbn.
  - repeat constructor.
  - destruct (String.leb x y) eqn:E.
    + constructor; [now constructor|].
      constructor; [exact E|].
      rewrite Forall_forall in *. intros z Hz.
      eapply leb_trans; [exact E | now apply Hy].
    + constructor; [exact IH|].
      rewrite Forall_forall in *. intros z Hz.
      apply (Permutation_in _ (sort_insert_perm x l)) in Hz.
      destruct Hz as [<- | Hz]; [|now apply Hy].
      destruct (String.leb_total x y) as [H|H]; congruence.
Qed.

Lemma sort_sorted (arr : list string) : nondescending (sort arr).
Proof.
  induction arr as [|x arr IH]; cbn; [constructor|].
  now apply sort_insert_sorted.
Qed.

Lemma nondescending_NoDup (arr : list string) :
  nondescending arr -> NoDup arr -> ascending arr.
Proof.
  unfold nondescending, ascending.
  induction 1 as [|x l Hl IH Hx]; intros Hnd; [constructor|].
  inversion Hnd as [|? ? Hnotin Hnd']; subst.
  constructor; [now apply IH|].
  rewrite Forall_forall in *. intros y Hy.
  destruct (proj1 (leb_lt_eq x y) (Hx y Hy)) as [H| ->]; [exact H|].
  contradiction.
Qed.

Lemma ascending_NoDup (arr : list string) : ascending arr -> NoDup arr.
Proof.
  induction 1 as [|x l Hl IH Hx]; constructor; [|exact IH].
  intros Hin. rewrite Forall_forall in Hx. specialize (Hx x Hin).
  now rewrite ltb_irrefl in Hx.
Qed.

Lemma sort_uniq_ascending (arr : list string) : ascending (sort (uniq arr)).
Proof.
  apply nondescending_NoDup; [apply sort_sorted|].
  apply (Permutation_NoDup (l := uniq arr));
    [symmetry; apply sort_perm | apply Set_from_NoDup].
Qed.

Lemma filter_ascending (f : string -> bool) (arr : list string) :
  ascending arr -> ascending (filter f arr).
Proof.
  induction 1 as [|x l Hl IH Hx]; cbn; [constructor|].
  destruct (f x); [|exact IH].
  constructor; [exact IH|].
  rewrite Forall_forall in *. intros y Hy.
  apply filter_In in Hy. now apply Hx.
Qed.

(** Two ascending arrays with the same entries are the same array. *)
Lemma ascending_unique (a1 a2 : list string) :
  ascending a1 -> ascending a2 ->
  (forall x, In x a1 <-> In x a2) -> a1 = a2.
Proof.
  intros H1. revert a2.
  induction H1 as [|x l1 Hl1 IH Hx]; intros a2 H2 Hsame.
  - destruct a2 as [|y a2]; [reflexivity|].
    destruct (proj2 (Hsame y)). now left.
  - destruct H2 as [|y l2 Hl2 Hy].
    + destruct (proj1 (Hsame x)). now left.
    + rewrite Forall_forall in Hx, Hy.
      assert (Exy : x = y).
      { destruct (proj1 (Hsame x) (or_introl eq_refl)) as [E|Hin1]; [auto|].
        destruct (proj2 (Hsame y) (or_introl eq_refl)) as [E|Hin2]; [auto|].
        pose proof (ltb_trans _ _ _ (Hy x Hin1) (Hx y Hin2)) as Hc.
        now rewrite ltb_irrefl in Hc. }
      subst y. f_equal. apply IH; [exact Hl2|].
      intros z. split; intros Hz.
      * destruct (proj1 (Hsame z) (or_intror Hz)) as [<-|H]; [|exact H].
        specialize (Hx _ Hz). now rewrite ltb_irrefl in Hx.
      * destruct (proj2 (Hsame z) (or_intror Hz)) as [<-|H]; [|exact H].
        specialize (Hy _ Hz). now rewrite ltb_irrefl in Hy.
Qed.

Lemma filter_subseq {A : Type} (f : A -> bool) (arr : list A) :
  subseq (filter f arr) arr.
Proof.
  induction arr as [|x arr IH]; cbn; [constructor|].
  destruct (f x); now constructor.
Qed.

End SortFacts.

(** ** Toggling *)

Section StoreFacts.

Lemma toggleHabit_other (iso target : string) (h : Habit) :
  id h <> target -> toggleHabit iso target h = h.
Proof.
  intros H. unfold toggleHabit.
  apply String.eqb_neq in H. now rewrite H.
Qed.

Lemma toggleHabit_match (iso target : string) (h : Habit) :
  id h = target ->
  toggleHabit iso target h =
  {| id := id h; name := name h; category := category h;
     createdAt := createdAt h;
     completions := toggled iso (completions h) |}.
Proof.
  intros H. unfold toggleHabit, toggled.
  apply String.eqb_eq in H. now rewrite H.
Qed.

Lemma removed_In (iso : string) (arr : list string) (d : string) :
  In d (filter (fun d => negb (d =? iso)%string) arr)
  <-> In d arr /\ d <> iso.
Proof.
  rewrite filter_In, negb_true_iff, String.eqb_neq. tauto.
Qed.

Lemma inserted_In (iso : string) (arr : list string) (d : string) :
  In d (sort (uniq (arr ++ [iso]))) <-> In d arr \/ d = iso.
Proof.
  rewrite sort_In. unfold uniq. rewrite Set_from_In, in_app_iff.
  cbn. intuition.
Qed.

Lemma toggled_ascending (iso : string) (arr : list string) :
  ascending arr \/ includes arr iso = false -> ascending (toggled iso arr).
Proof.
  unfold toggled. intros H. destruct (includes arr iso) eqn:E.
  - destruct H as [H|H]; [|discriminate]. now apply filter_ascending.
  - apply sort_uniq_ascending.
Qed.

Lemma toggled_twice_In (iso : string) (arr : list string) (d : string) :
  In d (toggled iso (toggled iso arr)) <-> In d arr.
Proof.
  unfold toggled at 2. destruct (includes arr iso) eqn:E.
  - apply includes_In in E. unfold toggled.
    set (arr' := filter _ arr).
    destruct (includes arr' iso) eqn:E2; subst arr'.
    + apply includes_In, removed_In in E2. tauto.
    + rewrite inserted_In, removed_In.
      destruct (string_dec d iso) as [->|Hne]; tauto.
  - assert (Hnot : ~ In iso arr).
    { intros Hin. apply includes_In in Hin. congruence. }
    unfold toggled. set (arr' := sort _).
    destruct (includes arr' iso) eqn:E2; subst arr'.
    + rewrite removed_In, inserted_In. split.
      * tauto.
      * intros Hin. split; [tauto|]. intros ->. tauto.
    + assert (In iso (sort (uniq (arr ++ [iso]))))
        by (apply inserted_In; now right).
      apply includes_In in H. congruence.
Qed.

Lemma toggled_twice_ascending (iso : string) (arr : list string) :
  ascending (toggled iso (toggled iso arr)).
Proof.
  unfold toggled at 2. destruct (includes arr iso) eqn:E.
  - apply toggled_ascending. right.
    apply not_true_is_false. intros H.
    apply includes_In, removed_In in H. tauto.
  - apply toggled_ascending. left. apply sort_uniq_ascending.
Qed.

Lemma toggleHabit_twice (iso target : string) (h : Habit) :
  same_contents (toggleHabit iso target (toggleHabit iso target h)) h
  /\ (ascending (completions h) \/ id h <> target ->
      toggleHabit iso target (toggleHabit iso target h) = h).
Proof.
  destruct (string_dec (id h) target) as [E|E].
  - rewrite (toggleHabit_match iso target h E).
    rewrite toggleHabit_match by exact E.
    cbn [id name category createdAt completions].
    split.
    + unfold same_contents. cbn [id name category createdAt completions].
      repeat split; try reflexivity; apply toggled_twice_In.
    + intros [Hasc|Hne]; [|contradiction].
      destruct h as [i n c t cs]. cbn in *. f_equal.
      apply ascending_unique;
        [apply toggled_twice_ascending | exact Hasc |].
      intros d. apply toggled_twice_In.
  - rewrite (toggleHabit_other iso target h E).
    rewrite (toggleHabit_other iso target h E).
    split; [|reflexivity]. unfold same_contents. tauto.
Qed.

Lemma trim_blank (s : string) :
  Forall (fun c => isWhiteSpace c = true) (list_ascii_of_string s) ->
  trim s = "".
Proof.
  unfold trim. induction s as [|c s IH]; cbn; intros H; [reflexivity|].
  inversion H as [|? ? Hc Hs]; subst. rewrite Hc. now apply IH.
Qed.

(** [addHabit] itself has no guard: the check of the name is in the click
    handler of the form. *)
Remark addHabit_unguarded (env : Env) (data : HabitData) (prev : list Habit) :
  List.length (addHabit env data prev) = S (List.length prev).
Proof. reflexivity. Qed.

End StoreFacts.

(** ** Storage *)

Section LoadFacts.
Variable JSON_parse : string -> option JSON.

Lemma load_missing : load JSON_parse emptyStorage = JArray [].
Proof. reflexivity. Qed.

Lemma load_empty_string : load JSON_parse (storing "") = JArray [].
Proof. reflexivity. Qed.

Lemma load_unparsable (raw : string) :
  JSON_parse raw = None -> load JSON_parse (storing raw) = JArray [].
Proof.
  intros H. unfold load, storing. rewrite String.eqb_refl, H.
  now destruct (raw =? "")%string.
Qed.

End LoadFacts.

(** * Main results *)

(** ** Streak *)

(** C1. One hour ahead of UTC, with yesterday and the day before completed
    and today not, [computeStreak] returns 1 where the specification's
    walk counts 2: [dateAdd] reads the date as local midnight and prints
    it in UTC, so it goes back two days for one. On UTC the same
    completions give 2. *)
Theorem computeStreak_ahead_of_UTC :
  todayISO envParis = "2024-01-10"
  /\ dateAdd envParis "2024-01-10" (-1) = Some "2024-01-08"
  /\ computeStreak envParis ["2024-01-09"; "2024-01-08"] = Returns 1%nat
  /\ Spec.streak (Calendar.Day (now envParis)) ["2024-01-09"; "2024-01-08"]
     = 2%nat
  /\ computeStreak envUTC ["2024-01-09"; "2024-01-08"] = Returns 2%nat.
Proof. vm_compute. repeat split. Qed.

(** C6. The streak is at most the number of completions: the loop ends
    within its fuel, a returned streak never exceeds [totalCompletions],
    and [computeStreak] does return unless the array has more than
    359763 entries. *)
Theorem computeStreak_le_totalCompletions (env : Env) (arr : list string) :
  env_ok env ->
  computeStreak env arr <> OutOfFuel
  /\ (forall n, computeStreak env arr = Returns n ->
                (n <= totalCompletions arr)%nat)
  /\ (Z.of_nat (totalCompletions arr) <= 359763 ->
      exists n, computeStreak env arr = Returns n).
Proof.
  intros Hok. pose proof (computeStreak_sound env Hok arr) as H.
  unfold totalCompletions.
  destruct (computeStreak env arr) as [n| |]; repeat split.
  - discriminate.
  - intros m [= <-]. exact H.
  - intros _. now exists n.
  - discriminate.
  - discriminate.
  - intros Hlen. lia.
  - contradiction.
  - contradiction.
  - contradiction.
Qed.

Lemma computeStreak_le_totalCompletions_witness :
  env_ok envNewYork
  /\ computeStreak envNewYork ["2024-01-10"; "2024-01-09"; "2024-01-07"]
     = Returns 2%nat
  /\ (2 <= totalCompletions ["2024-01-10"; "2024-01-09"; "2024-01-07"])%nat.
Proof.
  assert (Hok : env_ok envNewYork)
    by (unfold env_ok; cbn -[Z.le Z.lt]; unfold noon; lia).
  split; [exact Hok|].
  assert (E : computeStreak envNewYork
                ["2024-01-10"; "2024-01-09"; "2024-01-07"] = Returns 2%nat)
    by (vm_compute; reflexivity).
  split; [exact E|].
  exact (proj1 (proj2 (computeStreak_le_totalCompletions envNewYork
                         ["2024-01-10"; "2024-01-09"; "2024-01-07"] Hok))
           2%nat E).
Defined.

(** C10. Two arrays with the same entries, in whatever order and however
    often repeated, have the same streak. *)
Theorem computeStreak_membership (env : Env) (a1 a2 : list string) :
  env_ok env ->
  (forall d, In d a1 <-> In d a2) ->
  computeStreak env a1 = computeStreak env a2.
Proof.
  intros Hok Hsame.
  set (fuel := (S (List.length a1) + S (List.length a2))%nat).
  rewrite <- (computeStreak_fuel env Hok a1 fuel ltac:(lia)).
  rewrite <- (computeStreak_fuel env Hok a2 fuel ltac:(lia)).
  now apply computeStreakWith_ext.
Qed.

Lemma computeStreak_membership_witness :
  env_ok envParis
  /\ (forall d, In d ["2024-01-10"; "2024-01-08"; "2024-01-10"]
                <-> In d ["2024-01-08"; "2024-01-10"])
  /\ computeStreak envParis ["2024-01-10"; "2024-01-08"; "2024-01-10"]
     = computeStreak envParis ["2024-01-08"; "2024-01-10"].
Proof.
  assert (Hok : env_ok envParis)
    by (unfold env_ok; cbn -[Z.le Z.lt]; unfold noon; lia).
  assert (Hsame : forall d, In d ["2024-01-10"; "2024-01-08"; "2024-01-10"]
                            <-> In d ["2024-01-08"; "2024-01-10"])
    by (intros d; cbn; tauto).
  split; [exact Hok|]. split; [exact Hsame|].
  exact (computeStreak_membership envParis _ _ Hok Hsame).
Defined.

(** ** Evolution stage *)

(** C2. The stage is Egg below 4 completions, Hatchling from 4 to 10 and
    Evolved from 11 on, for [getStage] and for the label shown. *)
Theorem stageLabel_thresholds (total : Z) :
  (getStage total = Egg <-> total < 4)
  /\ (getStage total = Baby <-> 4 <= total < 11)
  /\ (getStage total = Final <-> 11 <= total)
  /\ (stageLabel total = "Egg" <-> total < 4)
  /\ (stageLabel total = "Hatchling" <-> 4 <= total < 11)
  /\ (stageLabel total = "Evolved" <-> 11 <= total).
Proof.
  unfold stageLabel, getStage. cbn [final baby THRESHOLDS].
  destruct (Z.leb_spec 11 total); [|destruct (Z.leb_spec 4 total)];
    repeat split; intros; try lia; try discriminate; reflexivity.
Qed.

Example stageLabel_scenarios :
  stageLabel 3 = "Egg" /\ stageLabel 4 = "Hatchling"
  /\ stageLabel 10 = "Hatchling" /\ stageLabel 11 = "Evolved"
  /\ stageLabel (Z.of_nat (totalCompletions [])) = "Egg".
Proof. repeat split. Qed.

(** ** The store *)

(** C3. Toggling today twice gives back every habit with its fields and
    with the same completion dates. A habit with another identifier is
    untouched, and so is the array of completions of the toggled habit
    when it was in ascending order; otherwise that array comes back
    sorted and without repetitions. *)
Theorem toggleToday_twice (env : Env) (target : string) (hs : list Habit) :
  Forall2
    (fun h2 h =>
       same_contents h2 h
       /\ (ascending (completions h) \/ id h <> target -> h2 = h))
    (toggleToday env target (toggleToday env target hs)) hs.
Proof.
  unfold toggleToday. induction hs as [|h hs IH]; cbn [map].
  - constructor.
  - constructor; [apply toggleHabit_twice | exact IH].
Qed.

Example toggleToday_twice_unsorted :
  toggleToday envUTC "a"
    (toggleToday envUTC "a"
       [mkHabit "a" "Read" Personal "t" ["2024-01-09"; "2024-01-08"]])
  = [mkHabit "a" "Read" Personal "t" ["2024-01-08"; "2024-01-09"]].
Proof. vm_compute. reflexivity. Qed.

(** C4. With a name that trims to the empty string the click handler
    changes nothing: no record is made and the collection stays as it
    is. *)
Theorem HabitForm_onClick_blank (env : Env) (st : AppState) :
  trim (form_name st) = "" ->
  HabitForm_onClick env st = st.
Proof.
  intros H. unfold HabitForm_onClick. now rewrite H.
Qed.

Lemma HabitForm_onClick_blank_witness :
  trim (form_name blankForm) = ""
  /\ HabitForm_onClick envUTC blankForm
     = blankForm.
Proof.
  split; [reflexivity|].
  apply (HabitForm_onClick_blank envUTC blankForm). reflexivity.
Defined.

(** C7, as amended. With a name that does not trim to the empty string the
    click handler puts one record in front of the collection and leaves
    the rest as it is; the record has the trimmed name, the chosen
    category, no completions, the clock's instant as [createdAt], and
    the identifier drawn from [Math.random]. *)
Theorem HabitForm_onClick_adds (env : Env) (st : AppState) :
  trim (form_name st) <> "" ->
  habits (HabitForm_onClick env st) =
  {| id := randomId env;
     name := trim (form_name st);
     category := form_category st;
     createdAt := JSDate.toISOString (now env);
     completions := [] |} :: habits st.
Proof.
  intros H. unfold HabitForm_onClick.
  apply String.eqb_neq in H. rewrite H. reflexivity.
Qed.

Lemma HabitForm_onClick_adds_witness :
  trim (form_name readForm) <> ""
  /\ habits (HabitForm_onClick envUTC readForm)
     = [mkHabit "k3x9q2a" "Read" Personal "2024-01-10T12:00:00.000Z" [];
        morningWalk].
Proof.
  assert (H : trim (form_name readForm) <> "")
    by (vm_compute; discriminate).
  split; [exact H|].
  exact (HabitForm_onClick_adds envUTC readForm H).
Defined.

(** C7 as stated fails: the new record takes the identifier that
    [Math.random] gives, and a habit of the collection may carry it
    already. *)
Lemma addHabit_identifier_collides :
  ~ (forall (env : Env) (st : AppState),
       trim (form_name st) <> "" ->
       exists h, habits (HabitForm_onClick env st) = h :: habits st
                 /\ fresh_id (id h) (habits st)).
Proof.
  intros H.
  destruct (H envUTC readForm) as (h & E & F).
  - vm_compute. discriminate.
  - injection E as <-. apply F. cbn. now left.
Qed.

(** C8. An identifier that no habit carries leaves the collection as it is
    under [toggleToday] and under [deleteHabit]. *)
Theorem unknown_identifier_noop (env : Env) (target : string)
    (hs : list Habit) :
  (forall h, In h hs -> id h <> target) ->
  toggleToday env target hs = hs /\ deleteHabit target hs = hs.
Proof.
  intros H. unfold toggleToday, deleteHabit.
  induction hs as [|h hs IH]; cbn [map filter]; [tauto|].
  assert (Hh : id h <> target) by (apply H; now left).
  destruct IH as [IH1 IH2]; [intros h' Hin; apply H; now right|].
  rewrite (toggleHabit_other _ _ _ Hh), IH1.
  apply String.eqb_neq in Hh. rewrite Hh. cbn [negb]. now rewrite IH2.
Qed.

Lemma unknown_identifier_noop_witness :
  (forall h, In h [morningWalk] -> id h <> "zzzzzzz")
  /\ toggleToday envUTC "zzzzzzz" [morningWalk] = [morningWalk]
  /\ deleteHabit "zzzzzzz" [morningWalk] = [morningWalk].
Proof.
  assert (H : forall h, In h [morningWalk] -> id h <> "zzzzzzz").
  { intros h [<-|[]]. cbn. discriminate. }
  split; [exact H|].
  exact (unknown_identifier_noop envUTC "zzzzzzz" [morningWalk] H).
Defined.

(** C9. For the habit that [toggleToday] matches: id, name, category and
    createdAt stay; when today was absent the new completions are free of
    repetitions, in ascending order, and hold the old dates and today;
    when today was present the new completions are the old ones in their
    order without today. *)
Theorem toggleToday_completions (env : Env) (target : string)
    (hs : list Habit) (h : Habit) :
  In h hs -> id h = target ->
  let iso := todayISO env in
  let h' := toggleHabit iso target h in
  In h' (toggleToday env target hs)
  /\ id h' = id h /\ name h' = name h /\ category h' = category h
  /\ createdAt h' = createdAt h
  /\ (includes (completions h) iso = false ->
      NoDup (completions h') /\ ascending (completions h')
      /\ forall d, In d (completions h') <-> In d (completions h) \/ d = iso)
  /\ (includes (completions h) iso = true ->
      subseq (completions h') (completions h)
      /\ ~ In iso (completions h')
      /\ forall d, d <> iso ->
           count_occ string_dec (completions h') d
           = count_occ string_dec (completions h) d).
Proof.
  intros Hin Hid iso h'. subst h'.
  split; [unfold toggleToday; now apply in_map|].
  rewrite (toggleHabit_match iso target h Hid).
  cbn [id name category createdAt completions]. unfold toggled.
  repeat split; try reflexivity.
  - rewrite H. apply ascending_NoDup, sort_uniq_ascending.
  - rewrite H. apply sort_uniq_ascending.
  - rewrite H. apply inserted_In.
  - rewrite H. apply inserted_In.
  - rewrite H. apply filter_subseq.
  - rewrite H. intros Hi. apply removed_In in Hi. tauto.
  - rewrite H. intros d Hd. clear H Hin.
    induction (completions h) as [|x l IH]; cbn [filter]; [reflexivity|].
    destruct (String.eqb_spec x iso) as [->|Hx]; cbn [negb count_occ].
    + destruct (string_dec iso d); [congruence | exact IH].
    + destruct (string_dec x d); now rewrite IH.
Qed.

Lemma toggleToday_completions_witness :
  In morningWalk [morningWalk] /\ id morningWalk = "k3x9q2a"
  /\ completions (toggleHabit (todayISO envUTC) "k3x9q2a" morningWalk)
     = ["2024-01-08"; "2024-01-09"; "2024-01-10"]
  /\ ascending
       (completions (toggleHabit (todayISO envUTC) "k3x9q2a" morningWalk)).
Proof.
  assert (Hin : In morningWalk [morningWalk]) by (now left).
  split; [exact Hin|]. split; [reflexivity|].
  split; [vm_compute; reflexivity|].
  destruct (toggleToday_completions envUTC "k3x9q2a" [morningWalk]
              morningWalk Hin eq_refl) as (_ & _ & _ & _ & _ & Hinsert & _).
  destruct Hinsert as (_ & Hasc & _); [vm_compute; reflexivity|].
  exact Hasc.
Defined.

(** ** Storage *)

(** C5. What [JSON.parse] accepts comes back from [load] as it is, of the
    expected shape or not: the text [null] gives [null], no empty
    array. *)
Theorem load_keeps_parsed_value (JSON_parse : string -> option JSON)
    (raw : string) (v : JSON) :
  raw <> "" -> JSON_parse raw = Some v ->
  load JSON_parse (storing raw) = v.
Proof.
  intros Hne Hv. unfold load, storing. rewrite String.eqb_refl, Hv.
  apply String.eqb_neq in Hne. now rewrite Hne.
Qed.

Lemma load_keeps_parsed_value_witness :
  let parse := fun raw => if (raw =? "null")%string then Some JNull else None in
  "null" <> "" /\ parse "null" = Some JNull
  /\ load parse (storing "null") = JNull
  /\ load parse (storing "null") <> JArray [].
Proof.
  intros parse.
  assert (Hne : "null" <> "") by discriminate.
  assert (Hp : parse "null" = Some JNull) by reflexivity.
  split; [exact Hne|]. split; [exact Hp|].
  rewrite (load_keeps_parsed_value parse "null" JNull Hne Hp).
  split; [reflexivity | discriminate].
Defined.

(** * Further properties *)

(** ** More on dates *)

Section MoreDateFacts.
Import Calendar Digits JSDate.

Lemma isoDate_inj (z1 z2 : Z) :
  firstDay <= z1 <= lastDay -> firstDay <= z2 <= lastDay ->
  isoDate z1 = isoDate z2 -> z1 = z2.
Proof.
  intros H1 H2 E.
  pose proof (parseDay_isoDate z1 H1) as P1.
  pose proof (parseDay_isoDate z2 H2) as P2.
  rewrite E in P1. congruence.
Qed.

Lemma streakStep_tzShift (env : Env) :
  env_ok env -> streakStep env = 1 - tzShift env.
Proof.
  intros Hok. unfold streakStep.
  destruct (tzShift_cases env Hok) as [[Ht ->]|[Ht ->]];
    destruct (Z.ltb_spec 0 (tzOffset env)); lia.
Qed.

Lemma streakStep_cases (env : Env) : streakStep env = 1 \/ streakStep env = 2.
Proof. unfold streakStep. destruct (0 <? tzOffset env); auto. Qed.

Lemma dateAdd_any (env : Env) (z k : Z) :
  env_ok env -> firstDay <= z <= lastDay ->
  firstDay <= z + k + tzShift env <= lastDay ->
  dateAdd env (isoDate z) k = Some (isoDate (z + k + tzShift env)).
Proof.
  intros Hok Hz Hr. unfold dateAdd.
  rewrite (newDate_isoDate env z Hok Hz), setDate_midnight.
  pose proof (tzShift_cases env Hok) as Hs.
  assert (Hc : TimeClip ((z + k) * msPerDay - LocalTZA env)
               = Some ((z + k) * msPerDay - LocalTZA env)).
  { unfold TimeClip.
    destruct (Z.leb_spec (Z.abs ((z + k) * msPerDay - LocalTZA env))
                8640000000000000); [reflexivity|].
    destruct Hok as [_ Htz].
    unfold firstDay, lastDay, LocalTZA, msPerDay in *. lia. }
  rewrite Hc, slice10_toISOString; rewrite Day_midnight;
    [reflexivity | exact Hr].
Qed.

End MoreDateFacts.

(** ** What the loop counts *)

Section StreakCount.
Import Calendar JSDate.

Variable env : Env.
Hypothesis Hok : env_ok env.

Lemma Set_has_includes (arr : list string) (x : string) :
  Set_has (Set_from arr) x = includes arr x.
Proof.
  apply eq_true_iff_eq. now rewrite Set_has_In, Set_from_In, includes_In.
Qed.

(** A run of the loop that returns has visited completed days, one step
    apart, and stopped at a day that is not completed. *)
Lemma streakLoop_counts (arr : list string) :
  forall (fuel : nat) (z : Z) (streak n : nat),
  firstDay + 2 * Z.of_nat fuel <= z + 2 -> z <= lastDay ->
  streakLoop fuel env (Set_from arr) streak (isoDate z) = Returns n ->
  exists m : nat, n = (streak + m)%nat
    /\ (forall i, 0 <= i < Z.of_nat m ->
          In (isoDate (z - streakStep env * i)) arr)
    /\ ~ In (isoDate (z - streakStep env * Z.of_nat m)) arr.
Proof.
  pose proof (streakStep_tzShift env Hok) as Hstep.
  pose proof (streakStep_cases env) as Hcases.
  induction fuel as [|fuel IH]; intros z streak n Hlo Hhi Hrun;
    [discriminate|].
  rewrite streakLoop_S, Set_has_includes in Hrun.
  destruct (includes arr (isoDate z)) eqn:Hin.
  - apply includes_In in Hin.
    destruct fuel as [|fuel].
    { destruct (dateAdd env (isoDate z) (-1)); discriminate. }
    rewrite dateAdd_any in Hrun by (auto; lia).
    apply IH in Hrun; [|lia|lia].
    destruct Hrun as (m & -> & Hall & Hstop).
    exists (S m). split; [lia|]. split.
    + intros i Hi. destruct (Z.eq_dec i 0) as [->|Hne].
      * now replace (z - streakStep env * 0) with z by lia.
      * replace (z - streakStep env * i)
          with (z + -1 + tzShift env - streakStep env * (i - 1)) by lia.
        apply Hall. lia.
    + replace (z - streakStep env * Z.of_nat (S m))
        with (z + -1 + tzShift env - streakStep env * Z.of_nat m) by lia.
      exact Hstop.
  - injection Hrun as <-. exists 0%nat. split; [lia|]. split.
    + intros i Hi. lia.
    + replace (z - streakStep env * Z.of_nat 0) with z by lia.
      intros H. apply includes_In in H. congruence.
Qed.

Lemma streak_days_unique (arr : list string) (n1 n2 : nat) :
  streak_days env arr n1 -> streak_days env arr n2 -> n1 = n2.
Proof.
  intros [A1 S1] [A2 S2].
  destruct (Nat.lt_trichotomy n1 n2) as [H|[H|H]]; [|exact H|].
  - destruct S1. apply A2. lia.
  - destruct S2. apply A1. lia.
Qed.

Lemma computeStreak_streak_days (arr : list string) (n : nat) :
  Z.of_nat (List.length arr) <= 359763 ->
  computeStreak env arr = Returns n -> streak_days env arr n.
Proof.
  intros Hlen Hrun.
  pose proof (streakStep_tzShift env Hok) as Hstep.
  destruct arr as [|a arr].
  - injection Hrun as <-. split; [intros i Hi; lia | intros []].
  - destruct (computeStreak_start env Hok (a :: arr) ltac:(discriminate))
      as (z & Hz & Hz2 & Hloop & Hstart).
    unfold computeStreak in Hrun. rewrite Hloop in Hrun.
    rewrite Set_has_includes in Hstart.
    apply streakLoop_counts in Hrun; [|unfold firstDay; lia|lia].
    destruct Hrun as (m & -> & Hall & Hstop). cbn [Nat.add].
    unfold streak_days, streakStart.
    replace (if includes (a :: arr) (isoDate (Day (now env)))
             then Day (now env) else Day (now env) - streakStep env)
      with z
      by (rewrite Hstart; destruct (includes (a :: arr) _); lia).
    split; assumption.
Qed.

Lemma computeStreak_counts_aux (arr : list string) (n : nat) :
  Z.of_nat (List.length arr) <= 359763 ->
  (computeStreak env arr = Returns n <-> streak_days env arr n).
Proof.
  intros Hlen. split.
  - now apply computeStreak_streak_days.
  - intros Hn.
    pose proof (computeStreak_sound env Hok arr) as Hs.
    destruct (computeStreak env arr) as [m| |] eqn:E; [|lia|contradiction].
    f_equal. apply (streak_days_unique arr); [|exact Hn].
    now apply computeStreak_streak_days.
Qed.

End StreakCount.

Section ToggleStreakFacts.
Import Calendar JSDate.

Variable env : Env.
Hypothesis Hok : env_ok env.

Lemma today_range : 0 <= Day (now env) <= lastDay.
Proof. exact (proj2 (todayISO_isoDate env Hok)). Qed.

(** The streak of an array and of the array with today added. *)
Lemma streak_days_with_today (arr arr' : list string) (k : nat) :
  Z.of_nat k <= 359762 ->
  ~ In (todayISO env) arr ->
  (forall d, In d arr' <-> In d arr \/ d = todayISO env) ->
  streak_days env arr k -> streak_days env arr' (S k).
Proof.
  intros Hk Hnot Hmem [Hall Hstop].
  pose proof today_range as Ht.
  pose proof (streakStep_cases env) as Hc.
  rewrite (proj1 (todayISO_isoDate env Hok)) in *.
  unfold streak_days, streakStart in *.
  set (today := Day (now env)) in *. set (s := streakStep env) in *.
  assert (E : includes arr (isoDate today) = false).
  { apply not_true_is_false. intros H. now apply includes_In in H. }
  assert (E' : includes arr' (isoDate today) = true).
  { apply includes_In, Hmem. now right. }
  rewrite E in *. rewrite E'. split.
  - intros i Hi. apply Hmem.
    destruct (Z.eq_dec i 0) as [->|Hne].
    + right. f_equal. lia.
    + left. replace (today - s * i) with (today - s - s * (i - 1)) by lia.
      apply Hall. lia.
  - intros H. apply Hmem in H. destruct H as [H|H].
    + apply Hstop.
      now replace (today - s - s * Z.of_nat k)
        with (today - s * Z.of_nat (S k)) by lia.
    + apply isoDate_inj in H; unfold firstDay in *; lia.
Qed.

Lemma streak_days_without_today (arr arr' : list string) (k : nat) :
  Z.of_nat k <= 359763 ->
  In (todayISO env) arr ->
  (forall d, In d arr' <-> In d arr /\ d <> todayISO env) ->
  streak_days env arr k -> streak_days env arr' (Nat.pred k) /\ (0 < k)%nat.
Proof.
  intros Hk Hin Hmem [Hall Hstop].
  pose proof today_range as Ht.
  pose proof (streakStep_cases env) as Hc.
  rewrite (proj1 (todayISO_isoDate env Hok)) in *.
  unfold streak_days, streakStart in *.
  set (today := Day (now env)) in *. set (s := streakStep env) in *.
  assert (E : includes arr (isoDate today) = true)
    by now apply includes_In.
  assert (E' : includes arr' (isoDate today) = false).
  { apply not_true_is_false. intros H. apply includes_In, Hmem in H. tauto. }
  rewrite E in *. rewrite E'.
  assert (Hpos : (0 < k)%nat).
  { destruct k; [|lia]. destruct Hstop.
    now replace (today - s * Z.of_nat 0) with today by lia. }
  split; [|exact Hpos]. split.
  - intros i Hi. apply Hmem. split.
    + replace (today - s - s * i) with (today - s * (i + 1)) by lia.
      apply Hall. lia.
    + intros H. apply isoDate_inj in H; unfold firstDay in *; lia.
  - intros H. apply Hmem in H. destruct H as [H _]. apply Hstop.
    now replace (today - s * Z.of_nat k)
      with (today - s - s * Z.of_nat (Nat.pred k)) by lia.
Qed.

End ToggleStreakFacts.

Section LengthFacts.

Lemma Set_add_length (s : list string) (x : string) :
  (List.length (Set_add s x) <= S (List.length s))%nat.
Proof.
  unfold Set_add. destruct (Set_has s x); [lia|].
  rewrite length_app. cbn. lia.
Qed.

Lemma fold_Set_add_length (arr s : list string) :
  (List.length (fold_left Set_add arr s)
   <= List.length s + List.length arr)%nat.
Proof.
  revert s. induction arr as [|x arr IH]; intros s; cbn; [lia|].
  specialize (IH (Set_add s x)). pose proof (Set_add_length s x). lia.
Qed.

Lemma uniq_length (arr : list string) :
  (List.length (uniq arr) <= List.length arr)%nat.
Proof. apply (fold_Set_add_length arr []). Qed.

Lemma sort_length (arr : list string) :
  List.length (sort arr) = List.length arr.
Proof. apply Permutation_length, sort_perm. Qed.

Lemma toggled_length (iso : string) (arr : list string) :
  (List.length (toggled iso arr) <= S (List.length arr))%nat.
Proof.
  unfold toggled. destruct (includes arr iso).
  - pose proof (filter_length_le (fun d => negb (d =? iso)%string) arr). lia.
  - rewrite sort_length. pose proof (uniq_length (arr ++ [iso])).
    rewrite length_app in H. cbn in H. lia.
Qed.

Lemma toggled_In (iso : string) (arr : list string) (d : string) :
  In d (toggled iso arr) <->
  if includes arr iso then In d arr /\ d <> iso else In d arr \/ d = iso.
Proof.
  unfold toggled. destruct (includes arr iso).
  - apply removed_In.
  - apply inserted_In.
Qed.

End LengthFacts.

Section UniqFacts.

Lemma fold_Set_add_NoDup_id (arr s : list string) :
  NoDup (s ++ arr) -> fold_left Set_add arr s = (s ++ arr)%list.
Proof.
  revert s. induction arr as [|x arr IH]; intros s H; cbn.
  - now rewrite app_nil_r.
  - assert (Hx : Set_has s x = false).
    { apply not_true_is_false. intros Hin. apply Set_has_In in Hin.
      apply NoDup_remove_2 in H. apply H. apply in_or_app. now left. }
    unfold Set_add at 2. rewrite Hx.
    rewrite IH; rewrite <- app_assoc; [reflexivity | exact H].
Qed.

Lemma uniq_NoDup_id (arr : list string) : NoDup arr -> uniq arr = arr.
Proof. intros H. apply (fold_Set_add_NoDup_id arr [] H). Qed.

Lemma subseq_refl {A : Type} (l : list A) : subseq l l.
Proof.
  induction l as [|x l IH]; [apply subseq_nil | now apply subseq_keep].
Qed.

Lemma subseq_trans {A : Type} (l1 l2 l3 : list A) :
  subseq l1 l2 -> subseq l2 l3 -> subseq l1 l3.
Proof.
  intros H12 H23. revert l1 H12.
  induction H23 as [|x l2 l3 H IH|x l2 l3 H IH]; intros l1 H12.
  - exact H12.
  - apply subseq_drop. now apply IH.
  - inversion H12; subst.
    + apply subseq_drop. now apply IH.
    + apply subseq_keep. now apply IH.
Qed.

Lemma subseq_app_drop {A : Type} (s arr : list A) (x : A) :
  subseq (s ++ arr) (s ++ x :: arr).
Proof.
  induction s as [|y s IH]; cbn.
  - apply subseq_drop, subseq_refl.
  - now apply subseq_keep.
Qed.

Lemma fold_Set_add_subseq (arr s : list string) :
  subseq (fold_left Set_add arr s) (s ++ arr).
Proof.
  revert s. induction arr as [|x arr IH]; intros s; cbn.
  - rewrite app_nil_r. apply subseq_refl.
  - apply (subseq_trans _ _ _ (IH (Set_add s x))).
    unfold Set_add. destruct (Set_has s x).
    + apply subseq_app_drop.
    + rewrite <- app_assoc. apply subseq_refl.
Qed.

End UniqFacts.







(** X4. Pressing the toggle of a habit changes its streak by exactly one:
    up when today was not completed, down when it was. *)
Theorem toggleHabit_streak (env : Env) (target : string) (h : Habit)
    (k : nat) :
  env_ok env ->
  Z.of_nat (List.length (completions h)) <= 359762 ->
  id h = target ->
  computeStreak env (completions h) = Returns k ->
  computeStreak env (completions (toggleHabit (todayISO env) target h))
  = Returns (if doneToday env h then Nat.pred k else S k)
  /\ (doneToday env h = true -> (0 < k)%nat).
Proof.
  intros Hok Hlen Hid Hk.
  pose proof (computeStreak_sound env Hok (completions h)) as Hs.
  rewrite Hk in Hs. cbv beta iota in Hs.
  apply computeStreak_streak_days in Hk; [|exact Hok|lia].
  rewrite (toggleHabit_match _ _ _ Hid). cbn [completions].
  pose proof (toggled_length (todayISO env) (completions h)) as Hl.
  pose proof (toggled_In (todayISO env) (completions h)) as Hmem.
  unfold doneToday in *.
  destruct (includes (completions h) (todayISO env)) eqn:E.
  - apply includes_In in E.
    destruct (streak_days_without_today env Hok _ _ k ltac:(lia) E Hmem Hk)
      as [Hd Hpos].
    split; [|intros _; exact Hpos].
    apply (proj2 (computeStreak_counts_aux env Hok
                    (toggled (todayISO env) (completions h)) _ ltac:(lia))).
    exact Hd.
  - assert (Hnot : ~ In (todayISO env) (completions h)).
    { intros H. apply includes_In in H. congruence. }
    pose proof (streak_days_with_today env Hok _ _ k ltac:(lia) Hnot Hmem Hk)
      as Hd.
    split; [|discriminate].
    apply (proj2 (computeStreak_counts_aux env Hok
                    (toggled (todayISO env) (completions h)) _ ltac:(lia))).
    exact Hd.
Qed.

Lemma toggleHabit_streak_witness :
  env_ok envParis
  /\ Z.of_nat (List.length (completions morningWalk)) <= 359762
  /\ id morningWalk = "k3x9q2a"
  /\ computeStreak envParis (completions morningWalk) = Returns 1%nat
  /\ computeStreak envParis
       (completions (toggleHabit (todayISO envParis) "k3x9q2a" morningWalk))
     = Returns 2%nat.
Proof.
  assert (Hok : env_ok envParis)
    by (unfold env_ok; cbn -[Z.le Z.lt]; unfold noon; lia).
  assert (Hlen : Z.of_nat (List.length (completions morningWalk)) <= 359762)
    by (cbn; lia).
  assert (Hk : computeStreak envParis (completions morningWalk)
               = Returns 1%nat) by (vm_compute; reflexivity).
  split; [exact Hok|]. split; [exact Hlen|]. split; [reflexivity|].
  split; [exact Hk|].
  exact (proj1 (toggleHabit_streak envParis "k3x9q2a" morningWalk 1%nat
                  Hok Hlen eq_refl Hk)).
Defined.

(** X5. Pressing the toggle flips what the button shows: a habit that was
    not done today is done afterwards, and the other way round. *)
Theorem toggleHabit_doneToday (env : Env) (target : string) (h : Habit) :
  id h = target ->
  doneToday env (toggleHabit (todayISO env) target h)
  = negb (doneToday env h).
Proof.
  intros Hid. rewrite (toggleHabit_match _ _ _ Hid).
  unfold doneToday. cbn [completions].
  pose proof (toggled_In (todayISO env) (completions h) (todayISO env)) as H.
  destruct (includes (completions h) (todayISO env)) eqn:E; cbn [negb].
  - apply not_true_is_false. intros Hi. apply includes_In, H in Hi. tauto.
  - apply includes_In, H. now right.
Qed.

Lemma toggleHabit_doneToday_witness :
  id morningWalk = "k3x9q2a"
  /\ doneToday envUTC morningWalk = false
  /\ doneToday envUTC (toggleHabit (todayISO envUTC) "k3x9q2a" morningWalk)
     = true.
Proof.
  split; [reflexivity|]. split; [reflexivity|].
  exact (toggleHabit_doneToday envUTC "k3x9q2a" morningWalk eq_refl).
Defined.

Lemma removed_length (iso : string) (arr : list string) :
  NoDup arr -> In iso arr ->
  S (List.length (filter (fun d => negb (d =? iso)%string) arr))
  = List.length arr.
Proof.
  induction 1 as [|x l Hx Hl IH]; intros Hin; [destruct Hin|].
  cbn [filter]. destruct (String.eqb_spec x iso) as [->|Hne]; cbn [negb].
  - cbn [List.length]. f_equal.
    clear IH Hin Hl. induction l as [|y l IH]; [reflexivity|].
    cbn [filter]. destruct (String.eqb_spec y iso) as [->|Hy]; cbn [negb].
    + destruct Hx. now left.
    + cbn [List.length]. f_equal. apply IH. intros H. apply Hx. now right.
  - destruct Hin as [E|Hin]; [contradiction|].
    cbn [List.length]. f_equal. now apply IH.
Qed.

(** X6. On completions without repetitions the toggle changes the total
    by exactly one: one more when today was not completed, one less when
    it was. *)
Theorem toggleHabit_total (env : Env) (target : string) (h : Habit) :
  id h = target -> NoDup (completions h) ->
  totalCompletions (completions (toggleHabit (todayISO env) target h))
  = if doneToday env h
    then Nat.pred (totalCompletions (completions h))
    else S (totalCompletions (completions h)).
Proof.
  intros Hid Hnd. rewrite (toggleHabit_match _ _ _ Hid).
  unfold doneToday, totalCompletions, toggled. cbn [completions].
  destruct (includes (completions h) (todayISO env)) eqn:E.
  - apply includes_In in E.
    now rewrite <- (removed_length (todayISO env) (completions h) Hnd E).
  - rewrite sort_length, uniq_NoDup_id.
    + rewrite length_app. cbn. lia.
    + apply NoDup_app; [exact Hnd | repeat constructor; intros [] |].
      intros x Hx [<-|[]]. apply includes_In in Hx. congruence.
Qed.

Lemma toggleHabit_total_witness :
  id morningWalk = "k3x9q2a" /\ NoDup (completions morningWalk)
  /\ totalCompletions
       (completions (toggleHabit (todayISO envUTC) "k3x9q2a" morningWalk))
     = 3%nat.
Proof.
  assert (Hnd : NoDup (completions morningWalk)).
  { cbn. repeat constructor; cbn; intuition discriminate. }
  split; [reflexivity|]. split; [exact Hnd|].
  exact (toggleHabit_total envUTC "k3x9q2a" morningWalk eq_refl Hnd).
Defined.

(** X7. [toggleToday] keeps the number, the order and the identifiers of
    the habits, and of every habit the name, category and creation time;
    a habit with another identifier is not changed at all. *)
Theorem toggleToday_frame (env : Env) (target : string) (hs : list Habit) :
  map id (toggleToday env target hs) = map id hs
  /\ Forall2
       (fun h' h =>
          name h' = name h /\ category h' = category h
          /\ createdAt h' = createdAt h
          /\ (id h <> target -> h' = h))
       (toggleToday env target hs) hs.
Proof.
  unfold toggleToday. induction hs as [|h hs [IH1 IH2]]; cbn [map].
  - split; constructor.
  - assert (H : id (toggleHabit (todayISO env) target h) = id h
                /\ name (toggleHabit (todayISO env) target h) = name h
                /\ category (toggleHabit (todayISO env) target h) = category h
                /\ createdAt (toggleHabit (todayISO env) target h)
                   = createdAt h).
    { destruct (string_dec (id h) target) as [E|E].
      - rewrite (toggleHabit_match _ _ _ E). cbn. tauto.
      - rewrite (toggleHabit_other _ _ _ E). tauto. }
    destruct H as (Hi & Hn & Hc & Ht). split.
    + now rewrite Hi, IH1.
    + constructor; [|exact IH2].
      repeat split; try assumption. apply toggleHabit_other.
Qed.

(** X8. [deleteHabit] removes every habit that carries the identifier and
    keeps the others, in their order. *)
Theorem deleteHabit_removes (target : string) (hs : list Habit) :
  fresh_id target (deleteHabit target hs)
  /\ subseq (deleteHabit target hs) hs
  /\ (forall h, In h (deleteHabit target hs) <-> In h hs /\ id h <> target)
  /\ deleteHabit target (deleteHabit target hs) = deleteHabit target hs.
Proof.
  assert (Hin : forall h, In h (deleteHabit target hs)
                          <-> In h hs /\ id h <> target).
  { intros h. unfold deleteHabit.
    rewrite filter_In, negb_true_iff, String.eqb_neq. tauto. }
  split; [|split; [|split]].
  - unfold fresh_id. intros H. apply in_map_iff in H as (h & E & H).
    apply Hin in H. tauto.
  - apply filter_subseq.
  - exact Hin.
  - unfold deleteHabit. induction hs as [|h hs IH]; [reflexivity|].
    cbn [filter]. destruct (negb (id h =? target)%string) eqn:E.
    + cbn [filter]. rewrite E. f_equal. apply IH.
      intros h'. unfold deleteHabit.
      rewrite filter_In, negb_true_iff, String.eqb_neq. tauto.
    + apply IH. intros h'. unfold deleteHabit.
      rewrite filter_In, negb_true_iff, String.eqb_neq. tauto.
Qed.

Lemma deleteHabit_fresh (target : string) (hs : list Habit) :
  deleteHabit target hs = hs <-> fresh_id target hs.
Proof.
  unfold fresh_id, deleteHabit. split.
  - intros Hd Hin.
    destruct (proj1 (in_map_iff id hs target) Hin) as (h & Hi & Hh).
    rewrite <- Hd in Hh. apply filter_In in Hh as [_ Hh].
    apply negb_true_iff, String.eqb_neq in Hh. contradiction.
  - induction hs as [|h hs IH]; intros Hfresh; [reflexivity|].
    cbn [filter]. cbn [map] in Hfresh.
    destruct (String.eqb_spec (id h) target) as [Eq|Ne]; cbn [negb].
    + destruct Hfresh. now left.
    + f_equal. apply IH. intros H. apply Hfresh. now right.
Qed.

(** X9. Deleting by the identifier of a habit just added undoes the
    addition, and takes along every older habit with the same identifier:
    the collection comes back as it was exactly when the drawn identifier
    was fresh. *)
Theorem add_then_delete (env : Env) (st : AppState) :
  trim (form_name st) <> "" ->
  deleteHabit (randomId env) (habits (HabitForm_onClick env st))
  = deleteHabit (randomId env) (habits st)
  /\ (deleteHabit (randomId env) (habits (HabitForm_onClick env st))
      = habits st
      <-> fresh_id (randomId env) (habits st)).
Proof.
  intros Hname.
  assert (E : deleteHabit (randomId env) (habits (HabitForm_onClick env st))
              = deleteHabit (randomId env) (habits st)).
  { unfold HabitForm_onClick. apply String.eqb_neq in Hname. rewrite Hname.
    unfold addHabit, deleteHabit. cbn [habits filter id].
    now rewrite String.eqb_refl. }
  split; [exact E|]. rewrite E. apply deleteHabit_fresh.
Qed.

Lemma add_then_delete_witness :
  trim (form_name readForm) <> ""
  /\ deleteHabit (randomId envUTC) (habits (HabitForm_onClick envUTC readForm))
     = []
  /\ habits readForm = [morningWalk].
Proof.
  assert (H : trim (form_name readForm) <> "") by (vm_compute; discriminate).
  split; [exact H|]. split; [|reflexivity].
  rewrite (proj1 (add_then_delete envUTC readForm H)). reflexivity.
Defined.

Lemma trim_empty : trim "" = "".
Proof. reflexivity. Qed.

(** X10. Pressing "Add Habit" twice in a row adds at most one habit: the
    first press clears the name, so the second one changes nothing. *)
Theorem HabitForm_onClick_twice (env1 env2 : Env) (st : AppState) :
  HabitForm_onClick env2 (HabitForm_onClick env1 st)
  = HabitForm_onClick env1 st.
Proof.
  unfold HabitForm_onClick at 2.
  destruct (trim (form_name st) =? "")%string eqn:E.
  - unfold HabitForm_onClick. now rewrite E.
  - unfold HabitForm_onClick. cbn [form_name]. rewrite E, trim_empty.
    reflexivity.
Qed.

Section TrimFacts.

Lemma trimStart_head (s : string) :
  trimStart s = ""
  \/ exists c r, trimStart s = String c r /\ isWhiteSpace c = false.
Proof.
  induction s as [|c s IH]; cbn [trimStart]; [now left|].
  destruct (isWhiteSpace c) eqn:E; [exact IH|].
  right. now exists c, s.
Qed.

Lemma trimEnd_head (c : ascii) (r : string) :
  isWhiteSpace c = false -> exists r', trimEnd (String c r) = String c r'.
Proof.
  intros E. cbn [trimEnd]. destruct (trimEnd r).
  - rewrite E. now eexists.
  - now eexists.
Qed.

Lemma trimEnd_idem (s : string) : trimEnd (trimEnd s) = trimEnd s.
Proof.
  induction s as [|c s IH]; [reflexivity|].
  cbn [trimEnd]. destruct (trimEnd s) as [|d t] eqn:T.
  - destruct (isWhiteSpace c) eqn:E; [reflexivity|].
    cbn [trimEnd]. now rewrite E.
  - cbn [trimEnd]. cbn [trimEnd] in IH. rewrite IH. reflexivity.
Qed.

Lemma trim_idem (s : string) : trim (trim s) = trim s.
Proof.
  unfold trim. destruct (trimStart_head s) as [->|(c & r & -> & E)];
    [reflexivity|].
  destruct (trimEnd_head c r E) as [r' Hr]. rewrite Hr.
  cbn [trimStart]. rewrite E, <- Hr. apply trimEnd_idem.
Qed.

End TrimFacts.

Section MachineFacts.

Lemma habit_ok_toggle (iso target : string) (h : Habit) :
  habit_ok h -> habit_ok (toggleHabit iso target h).
Proof.
  intros (Hn & Ht & Ha). destruct (string_dec (id h) target) as [E|E].
  - rewrite (toggleHabit_match _ _ _ E). unfold habit_ok. cbn.
    repeat split; try assumption. apply toggled_ascending. now left.
  - now rewrite (toggleHabit_other _ _ _ E).
Qed.

Lemma habit_ok_act (st : AppState) (a : Action) :
  Forall habit_ok (habits st) -> Forall habit_ok (habits (act st a)).
Proof.
  intros H. destruct a as [text|c|env|env target|target]; cbn [act habits];
    try exact H.
  - unfold HabitForm_onClick.
    destruct (trim (form_name st) =? "")%string eqn:E; [exact H|].
    cbn [habits]. unfold addHabit. constructor; [|exact H].
    unfold habit_ok. cbn. apply String.eqb_neq in E.
    repeat split; [exact E | apply trim_idem | constructor].
  - unfold toggleToday. induction H; cbn [map]; constructor;
      [now apply habit_ok_toggle | assumption].
  - unfold deleteHabit. induction H; cbn [filter]; [constructor|].
    destruct (negb (id x =? target)%string); [now constructor | assumption].
Qed.

Lemma habit_ok_run (actions : list Action) (st : AppState) :
  Forall habit_ok (habits st) -> Forall habit_ok (habits (run actions st)).
Proof.
  unfold run. revert st.
  induction actions as [|a actions IH]; intros st H; [exact H|].
  cbn [fold_left]. apply IH. now apply habit_ok_act.
Qed.

(** Every completion of a state was written by a toggle. *)
Lemma completions_act (Q : string -> Prop) (st : AppState) (a : Action) :
  (forall h d, In h (habits st) -> In d (completions h) -> Q d) ->
  (forall env target, a = ClickToggle env target -> Q (todayISO env)) ->
  forall h d, In h (habits (act st a)) -> In d (completions h) -> Q d.
Proof.
  intros Hst Ha h d Hh Hd.
  destruct a as [text|c|env|env target|target]; cbn [act habits] in Hh.
  - eauto.
  - eauto.
  - unfold HabitForm_onClick in Hh.
    destruct (trim (form_name st) =? "")%string; [eauto|].
    cbn [habits] in Hh. unfold addHabit in Hh.
    destruct Hh as [<-|Hh]; [destruct Hd | eauto].
  - unfold toggleToday in Hh. apply in_map_iff in Hh as (h0 & <- & Hh0).
    destruct (string_dec (id h0) target) as [E|E].
    + rewrite (toggleHabit_match _ _ _ E) in Hd. cbn [completions] in Hd.
      apply toggled_In in Hd.
      destruct (includes (completions h0) (todayISO env)).
      * destruct Hd as [Hd _]. eauto.
      * destruct Hd as [Hd| ->]; [eauto | now apply (Ha env target)].
    + rewrite (toggleHabit_other _ _ _ E) in Hd. eauto.
  - unfold deleteHabit in Hh. apply filter_In in Hh as [Hh _]. eauto.
Qed.

Lemma completions_run (Q : string -> Prop) (actions : list Action) :
  forall st,
  (forall h d, In h (habits st) -> In d (completions h) -> Q d) ->
  (forall env target, In (ClickToggle env target) actions ->
                      Q (todayISO env)) ->
  forall h d, In h (habits (run actions st)) -> In d (completions h) -> Q d.
Proof.
  unfold run. induction actions as [|a actions IH]; intros st Hst Ha;
    [exact Hst|].
  cbn [fold_left]. apply IH.
  - apply completions_act; [exact Hst|].
    intros env target ->. apply (Ha env target). now left.
  - intros env target Hin. apply (Ha env target). now right.
Qed.

End MachineFacts.

(** X11. From the empty collection, whatever the user does, every habit
    has a name that is not empty and has no white space around it, and
    completions in ascending order without repetitions. *)
Theorem run_keeps_habits_ok (actions : list Action) :
  Forall habit_ok (habits (run actions initialState)).
Proof. apply habit_ok_run. constructor. Qed.

(** X12. In every state reached from the empty collection, pressing a
    toggle twice gives back the very same state. *)
Theorem toggle_twice_restores (actions : list Action) (env : Env)
    (target : string) :
  run (actions ++ [ClickToggle env target; ClickToggle env target])
    initialState
  = run actions initialState.
Proof.
  unfold run. rewrite fold_left_app.
  fold (run actions initialState).
  pose proof (habit_ok_run actions initialState (Forall_nil _)) as Hok.
  destruct (run actions initialState) as [hs n c]. cbn in *.
  f_equal. unfold toggleToday.
  induction Hok as [|h hs (_ & _ & Ha) _ IH]; cbn [map]; [reflexivity|].
  f_equal; [|exact IH].
  apply (proj2 (toggleHabit_twice (todayISO env) target h)). now left.
Qed.

(** X13. Every completion of a state reached from the empty collection is
    the UTC date that the clock showed at one of the toggle presses. *)
Theorem completions_from_clock (actions : list Action) (h : Habit)
    (d : string) :
  In h (habits (run actions initialState)) -> In d (completions h) ->
  exists env target,
    In (ClickToggle env target) actions /\ d = todayISO env.
Proof.
  apply (completions_run
           (fun d => exists env target,
              In (ClickToggle env target) actions /\ d = todayISO env)).
  - intros h0 d0 [].
  - intros env target Hin. now exists env, target.
Qed.

Lemma completions_from_clock_witness :
  let actions :=
    [TypeName "Read"; ClickAdd envUTC; ClickToggle envParis "k3x9q2a"] in
  habits (run actions initialState)
  = [mkHabit "k3x9q2a" "Read" Health "2024-01-10T12:00:00.000Z"
       ["2024-01-10"]]
  /\ exists env target,
       In (ClickToggle env target) actions /\ "2024-01-10" = todayISO env.
Proof.
  intros actions.
  assert (E : habits (run actions initialState)
              = [mkHabit "k3x9q2a" "Read" Health "2024-01-10T12:00:00.000Z"
                   ["2024-01-10"]]) by (vm_compute; reflexivity).
  split; [exact E|].
  apply (completions_from_clock actions
           (mkHabit "k3x9q2a" "Read" Health "2024-01-10T12:00:00.000Z"
              ["2024-01-10"]) "2024-01-10").
  - rewrite E. now left.
  - now left.
Defined.

(** X14. [uniq] keeps the entries of the array, each once and in the order
    of the array, and returns an array without repetitions as it is. *)
Theorem uniq_spec (arr : list string) :
  NoDup (uniq arr)
  /\ (forall x, In x (uniq arr) <-> In x arr)
  /\ subseq (uniq arr) arr
  /\ (NoDup arr -> uniq arr = arr)
  /\ uniq (uniq arr) = uniq arr.
Proof.
  split; [apply Set_from_NoDup|].
  split; [intros x; apply Set_from_In|].
  split; [apply (fold_Set_add_subseq arr [])|].
  split; [apply uniq_NoDup_id|].
  apply uniq_NoDup_id, Set_from_NoDup.
Qed.

(** X15. The stage never goes down when the completions go up, and it
    changes between [total] and [total + 1] exactly at 3 and at 10. *)
Theorem getStage_monotone (a b : Z) :
  (a <= b -> stageRank (getStage a) <= stageRank (getStage b))
  /\ (getStage (a + 1) <> getStage a <-> a = 3 \/ a = 10).
Proof.
  unfold getStage. cbn [final baby THRESHOLDS].
  destruct (Z.leb_spec 11 a), (Z.leb_spec 4 a),
           (Z.leb_spec 11 b), (Z.leb_spec 4 b),
           (Z.leb_spec 11 (a + 1)), (Z.leb_spec 4 (a + 1));
    cbn [stageRank]; split; try lia;
    split; intros; try lia; try congruence; try discriminate.
Qed.

(** X16. Within a category the emoji tells the stage: two totals show the
    same emoji exactly when they are in the same stage. All categories
    share the egg, and past the egg the emoji tells the category. *)
Theorem creatureEmoji_stage (c c' : HabitCategory) (a b : Z) :
  (creatureEmoji c a = creatureEmoji c b <-> getStage a = getStage b)
  /\ (getStage a = Egg -> creatureEmoji c a = creatureEmoji c' a)
  /\ (getStage a <> Egg -> creatureEmoji c a = creatureEmoji c' a -> c = c').
Proof.
  unfold creatureEmoji.
  destruct (getStage a), (getStage b), c, c'; cbn [CREATURES];
    repeat split; intros; try reflexivity; try discriminate; try congruence.
Qed.




Section FilterFacts.

Lemma category_eqb_eq (a b : HabitCategory) :
  category_eqb a b = true <-> a = b.
Proof. destruct a, b; cbn; split; congruence. Qed.

Lemma toggleHabit_fields (iso target : string) (h : Habit) :
  id (toggleHabit iso target h) = id h
  /\ category (toggleHabit iso target h) = category h.
Proof.
  destruct (string_dec (id h) target) as [E|E].
  - rewrite (toggleHabit_match _ _ _ E). cbn. tauto.
  - rewrite (toggleHabit_other _ _ _ E). tauto.
Qed.

Lemma filter_map_commute {A : Type} (f : A -> A) (p : A -> bool)
    (l : list A) :
  (forall x, p (f x) = p x) -> filter p (map f l) = map f (filter p l).
Proof.
  intros H. induction l as [|x l IH]; [reflexivity|].
  cbn [map filter]. rewrite H. destruct (p x); cbn [map]; now rewrite IH.
Qed.

Lemma filter_filter_commute {A : Type} (p q : A -> bool) (l : list A) :
  filter p (filter q l) = filter q (filter p l).
Proof.
  induction l as [|x l IH]; [reflexivity|].
  cbn [filter]. destruct (p x) eqn:P, (q x) eqn:Q; cbn [filter];
    rewrite ?P, ?Q, IH; reflexivity.
Qed.

End FilterFacts.

(** X19. The four category views split the collection: a view holds
    exactly the habits of its category, in their order, and the sizes of
    the four views add up to the size of the collection. *)
Theorem filtered_partition (hs : list Habit) :
  (forall c h, In h (filtered (Only c) hs) <-> In h hs /\ category h = c)
  /\ (forall c, subseq (filtered (Only c) hs) hs)
  /\ list_sum (map (fun c => List.length (filtered (Only c) hs)) CATEGORIES)
     = List.length hs
  /\ filtered All hs = hs.
Proof.
  split; [|split; [|split]].
  - intros c h. cbn [filtered]. rewrite filter_In, category_eqb_eq. tauto.
  - intros c. apply filter_subseq.
  - cbn [filtered CATEGORIES map list_sum fold_right].
    induction hs as [|h hs IH]; [reflexivity|].
    cbn [filter List.length].
    destruct (category h); cbn [category_eqb List.length]; lia.
  - reflexivity.
Qed.

(** X20. [toggleToday] and [deleteHabit] can be applied in either order,
    and each of them can be applied before or after the category filter:
    no habit changes its view by being toggled. *)
Theorem store_operations_commute (env : Env) (t1 t2 : string)
    (f : Filter) (hs : list Habit) :
  deleteHabit t1 (toggleToday env t2 hs)
  = toggleToday env t2 (deleteHabit t1 hs)
  /\ filtered f (toggleToday env t2 hs) = toggleToday env t2 (filtered f hs)
  /\ filtered f (deleteHabit t1 hs) = deleteHabit t1 (filtered f hs).
Proof.
  unfold deleteHabit, toggleToday. split; [|split].
  - apply filter_map_commute. intros h.
    now rewrite (proj1 (toggleHabit_fields _ _ h)).
  - destruct f as [|c]; [reflexivity|]. cbn [filtered].
    apply filter_map_commute. intros h.
    now rewrite (proj2 (toggleHabit_fields _ _ h)).
  - destruct f as [|c]; [reflexivity|]. cbn [filtered].
    apply filter_filter_commute.
Qed.

Section StatsFacts.

Variable env : Env.
Hypothesis Hok : env_ok env.

Lemma totalChecks_from (hs : list Habit) (acc : nat) :
  fold_left (fun acc h => (acc + List.length (completions h))%nat) hs acc
  = (acc + totalChecks hs)%nat.
Proof.
  unfold totalChecks. revert acc.
  induction hs as [|h hs IH]; intros acc; cbn [fold_left]; [lia|].
  rewrite IH, (IH (0 + _)%nat). lia.
Qed.

Let stepStreak (acc : outcome nat) (h : Habit) : outcome nat :=
  match acc with
  | Returns a =>
      match computeStreak env (completions h) with
      | Returns n => Returns (a + (if (0 <? n)%nat then 1 else 0))%nat
      | Throws => Throws
      | OutOfFuel => OutOfFuel
      end
  | Throws => Throws
  | OutOfFuel => OutOfFuel
  end.

Lemma activeStreaks_from (hs : list Habit) :
  forall (a n : nat),
  fold_left stepStreak hs (Returns a) = Returns n ->
  (a <= n <= a + List.length hs)%nat /\ (n <= a + totalChecks hs)%nat.
Proof.
  induction hs as [|h hs IH]; intros a n H; cbn [fold_left] in H.
  - injection H as <-. unfold totalChecks. cbn. lia.
  - unfold stepStreak at 2 in H.
    pose proof (computeStreak_sound env Hok (completions h)) as Hs.
    destruct (computeStreak env (completions h)) as [k| |].
    + apply IH in H. unfold totalChecks in *. cbn [fold_left List.length].
      rewrite totalChecks_from. fold (totalChecks hs) in *.
      destruct (0 <? k)%nat eqn:E.
      * apply Nat.ltb_lt in E. lia.
      * lia.
    + exfalso. clear -H. induction hs as [|x hs IHhs]; [discriminate|].
      apply IHhs. exact H.
    + exfalso. contradiction.
Qed.

End StatsFacts.

(** X21. The number of active streaks in the header is at most the number
    of habits and at most the total of checks: a habit with a streak has
    at least one completion. *)
Theorem activeStreaks_bounds (env : Env) (hs : list Habit) (n : nat) :
  env_ok env ->
  activeStreaks env hs = Returns n ->
  (n <= List.length hs)%nat /\ (n <= totalChecks hs)%nat.
Proof.
  intros Hok H.
  destruct (activeStreaks_from env Hok hs 0%nat n H) as [H1 H2]. lia.
Qed.

Lemma activeStreaks_bounds_witness :
  env_ok envUTC
  /\ activeStreaks envUTC [morningWalk; mkHabit "b" "Draw" Creativity "t" []]
     = Returns 1%nat
  /\ (1 <= List.length [morningWalk; mkHabit "b" "Draw" Creativity "t" []])%nat
  /\ (1 <= totalChecks [morningWalk; mkHabit "b" "Draw" Creativity "t" []])%nat.
Proof.
  assert (Hok : env_ok envUTC)
    by (unfold env_ok; cbn -[Z.le Z.lt]; unfold noon; lia).
  assert (E : activeStreaks envUTC
                [morningWalk; mkHabit "b" "Draw" Creativity "t" []]
              = Returns 1%nat) by (vm_compute; reflexivity).
  split; [exact Hok|]. split; [exact E|].
  exact (activeStreaks_bounds envUTC _ 1%nat Hok E).
Defined.
